(** * combine-overlays.py: a shallow embedding and its verified properties

    The script scans a folder of exported memories, pairs every overlay
    PNG with its base picture or video and writes one flattened file per
    memory.  Python code with side effects is embedded as functions in a
    state-and-exception monad over an explicit [world]: the file system,
    the behaviour of spawned processes, the pending lines of standard
    input and the trace of everything the run did so far. *)

From Stdlib Require Import Ascii String ZArith Lia.
From stdpp Require Import gmap strings list fin_maps pretty.

Local Open Scope string_scope.
Local Open Scope Z_scope.
Local Open Scope list_scope.

(** ** Python strings *)

Module Str.

(** [c.lower()] for one character (ASCII letters; other bytes are kept). *)
Definition lower_ascii (c : ascii) : ascii :=
  let n := nat_of_ascii c in
  if ((65 <=? n)%nat && (n <=? 90)%nat)%bool then ascii_of_nat (n + 32) else c.

(** [s.lower()] *)
Fixpoint lower (s : string) : string :=
  match s with
  | EmptyString => EmptyString
  | String c s' => String (lower_ascii c) (lower s')
  end.

(** [needle in hay] *)
Fixpoint contains (needle hay : string) : bool :=
  String.prefix needle hay ||
  match hay with
  | EmptyString => false
  | String _ hay' => contains needle hay'
  end.

(** [s.endswith(suffix)] *)
Fixpoint endswith (suffix s : string) : bool :=
  String.eqb suffix s ||
  match s with
  | EmptyString => false
  | String _ s' => endswith suffix s'
  end.

Definition is_empty (s : string) : bool :=
  match s with EmptyString => true | _ => false end.

(** [c * n] *)
Fixpoint replicate (n : nat) (c : ascii) : string :=
  match n with
  | O => EmptyString
  | S n' => String c (replicate n' c)
  end.

Definition newline : string := String (ascii_of_nat 10) EmptyString.

End Str.

(** ** posixpath *)

Module Path.

Definition sep : ascii := "/"%char.

(** [os.path.join(a, b)] *)
Definition join (a b : string) : string :=
  if String.prefix "/" b then b
  else if Str.is_empty a || Str.endswith "/" a then a +:+ b
  else a +:+ "/" +:+ b.

Definition has_sep (p : string) : bool := Str.contains "/" p.

(** [(p[:i], p[i:])] for [i = p.rfind('/') + 1] *)
Fixpoint cut (p : string) : string * string :=
  match p with
  | EmptyString => (EmptyString, EmptyString)
  | String c s =>
      let '(h, t) := cut s in
      if has_sep s then (String c h, t)
      else if Ascii.eqb c sep then (String c EmptyString, s)
      else (EmptyString, String c s)
  end.

(** [s.rstrip('/')] *)
Fixpoint rstrip (s : string) : string :=
  match s with
  | EmptyString => EmptyString
  | String c s' =>
      let r := rstrip s' in
      if Str.is_empty r && Ascii.eqb c sep then EmptyString else String c r
  end.

(** [os.path.split(p)] *)
Definition split (p : string) : string * string :=
  let '(head, tail) := cut p in
  (if Str.is_empty (rstrip head) then head else rstrip head, tail).

Definition dirname (p : string) : string := fst (split p).
Definition basename (p : string) : string := snd (split p).

End Path.

(** ** Exceptions *)

Inductive exn_class :=
| FileNotFoundError | NotADirectoryError | IsADirectoryError | FileExistsError
| PermissionError | UnidentifiedImageError | DecompressionBombError | OSError
| ValueError | UnicodeDecodeError | OverflowError | TypeError | AttributeError
| IndexError | EOFError.

Inductive exn :=
| Exn (c : exn_class) (msg : string)
| CalledProcessError (returncode : Z) (stderr : string)
| SystemExit (code : Z).

(** [isinstance(e, Exception)]: [SystemExit] derives from [BaseException] only. *)
Definition is_Exception (e : exn) : bool :=
  match e with SystemExit _ => false | _ => true end.

(** [str(e)] *)
Definition exn_str (e : exn) : string :=
  match e with
  | Exn _ msg => msg
  | CalledProcessError rc _ => "Command returned non-zero exit status " +:+ pretty rc +:+ "."
  | SystemExit rc => pretty rc
  end.

Inductive result (A : Type) :=
| Ok (a : A)
| Raise (e : exn).
Arguments Ok {A} a.
Arguments Raise {A} e.

(** ** Pictures as Pillow sees them

    Pixel values never decide a branch of the script, so a raster is kept
    as the term that says how it was obtained. *)

Inductive img_mode := ModeL | ModeP | ModeRGB | ModeRGBA | ModeCMYK.
Inductive img_format := JPEG | PNG | GIF.

Inductive pixels :=
| PxSource (id : N)
| PxConvert (m : img_mode) (p : pixels)
| PxLanczos (size : Z * Z) (p : pixels)
| PxPaste (dst src mask : pixels)
| PxJpeg (quality : Z) (p : pixels).

(** An encoded picture on disk. [f_exif] is the payload of the EXIF
    segment, empty when the file has none. *)
Record img_file := {
  f_format : img_format;
  f_mode : img_mode;
  f_size : Z * Z;
  f_exif : list Byte.byte;
  f_pixels : pixels
}.

Inductive content :=
| Picture (f : img_file)
| Blob (bytes : list Byte.byte).

Inductive entry :=
| EDir (names : list string)
| EFile (c : content).

(** ** The world *)

(** What becomes of a spawned program.  It may fail to start: it is not
    found, it may not be executed, or it is no executable.  When it ran,
    [stderr] is its error output as the parent reads it, and [garbled] is
    the message of the decoding error when what was captured of it is not
    text in the locale's encoding. *)
Inductive proc_outcome :=
| NotFound
| NotPermitted
| NotExecutable
| Exited (returncode : Z) (stderr : string) (garbled : option string)
    (fs' : gmap string entry).

Inductive event :=
| EvPrint (line : string)
| EvInput (prompt : string)
| EvExists (p : string)
| EvIsdir (p : string)
| EvListdir (p : string)
| EvMakedirs (p : string)
| EvImageOpen (p : option string)
| EvImageSave (p : string)
| EvSpawn (cmd : list (option string))
| EvCombineImage (base : option string) (overlay out : string) (quality : Z)
| EvCombineVideo (base : option string) (overlay out : string).

Record world := {
  fs : gmap string entry;
  spawn : list string → gmap string entry → proc_outcome;
  stdin : list string;
  trace : list event
}.

Definition log (e : event) (w : world) : world :=
  {| fs := fs w; spawn := spawn w; stdin := stdin w; trace := trace w ++ [e] |}.

Definition set_fs (m : gmap string entry) (w : world) : world :=
  {| fs := m; spawn := spawn w; stdin := stdin w; trace := trace w |}.

Definition set_stdin (l : list string) (w : world) : world :=
  {| fs := fs w; spawn := spawn w; stdin := l; trace := trace w |}.

(** ** The monad: state passing with exceptions that keep the state *)

Definition M (A : Type) : Type := world → result A * world.

Definition ret {A} (a : A) : M A := fun w => (Ok a, w).

Definition bind {A B} (m : M A) (k : A → M B) : M B :=
  fun w =>
    match m w with
    | (Ok a, w') => k a w'
    | (Raise e, w') => (Raise e, w')
    end.

Definition raise {A} (e : exn) : M A := fun w => (Raise e, w).

(** [try: body  except Exception as e: handler(e)] *)
Definition try_except {A} (body : M A) (handler : exn → M A) : M A :=
  fun w =>
    match body w with
    | (Ok a, w') => (Ok a, w')
    | (Raise e, w') => if is_Exception e then handler e w' else (Raise e, w')
    end.

Declare Scope py_scope.
Delimit Scope py_scope with py.
Notation "'let*' x ':=' m 'in' k" := (bind m (fun x => k))
  (at level 10, x name, m at level 100, k at level 200) : py_scope.
Notation "m ;;; k" := (bind m (fun _ => k))
  (at level 100, right associativity) : py_scope.
Local Open Scope py_scope.

Definition when (b : bool) (m : M unit) : M unit := if b then m else ret tt.

(** Entering a function leaves a mark in the trace. *)
Definition note (e : event) : M unit := fun w => (Ok tt, log e w).

(** ** The operating system: [print], [input], [os], [os.path], [subprocess] *)

Definition print (line : string) : M unit :=
  fun w => (Ok tt, log (EvPrint line) w).

Definition input (prompt : string) : M string :=
  fun w =>
    let w := log (EvInput prompt) w in
    match stdin w with
    | [] => (Raise (Exn EOFError "EOF when reading a line"), w)
    | line :: rest => (Ok line, set_stdin rest w)
    end.

Definition fs_exists (m : gmap string entry) (p : string) : bool :=
  match m !! p with Some _ => true | None => false end.

Definition fs_isdir (m : gmap string entry) (p : string) : bool :=
  match m !! p with Some (EDir _) => true | _ => false end.

(** The longest name of an entry and the longest path the system takes,
    in bytes. *)
Definition NAME_MAX : nat := 255.
Definition PATH_MAX : nat := 4096.

Definition has_nul (p : string) : bool :=
  Str.contains (String (ascii_of_nat 0) EmptyString) p.

(** A path the system takes at all: no null byte, and short enough. *)
Definition path_ok (p : string) : bool :=
  negb (has_nul p) && (String.length p <? PATH_MAX)%nat.

(** A name a new file can bear. *)
Definition name_ok (n : string) : bool :=
  negb (Str.is_empty n) && negb (String.eqb n ".") && negb (String.eqb n "..") &&
  (String.length n <=? NAME_MAX)%nat.

(** A path can be opened for writing when the system takes it, its last
    part can name a file, its directory is there (the empty directory name
    is the working directory) and the path itself is not a directory. *)
Definition fs_writable (m : gmap string entry) (p : string) : bool :=
  path_ok p && name_ok (Path.basename p) &&
  (Str.is_empty (Path.dirname p) || fs_isdir m (Path.dirname p)) && negb (fs_isdir m p).

(** What [open(p, 'w+b')] raises for a path that cannot be opened for
    writing. *)
Definition open_error (m : gmap string entry) (p : string) : exn :=
  if has_nul p then Exn ValueError "embedded null byte"
  else if (PATH_MAX <=? String.length p)%nat then
    Exn OSError ("[Errno 36] File name too long: '" +:+ p +:+ "'")
  else if Str.is_empty p then
    Exn FileNotFoundError ("[Errno 2] No such file or directory: '" +:+ p +:+ "'")
  else if negb (Str.is_empty (Path.dirname p) || fs_isdir m (Path.dirname p)) then
    if fs_exists m (Path.dirname p)
    then Exn NotADirectoryError ("[Errno 20] Not a directory: '" +:+ p +:+ "'")
    else Exn FileNotFoundError ("[Errno 2] No such file or directory: '" +:+ p +:+ "'")
  else if (NAME_MAX <? String.length (Path.basename p))%nat then
    Exn OSError ("[Errno 36] File name too long: '" +:+ p +:+ "'")
  else Exn IsADirectoryError ("[Errno 21] Is a directory: '" +:+ p +:+ "'").

(** The name of a new entry is added to the listing of its directory. *)
Definition fs_link (m : gmap string entry) (p : string) : gmap string entry :=
  match m !! Path.dirname p with
  | Some (EDir names) =>
      if bool_decide (Path.basename p ∈ names) then m
      else <[Path.dirname p := EDir (names ++ [Path.basename p])]> m
  | _ => m
  end.

Definition fs_put (m : gmap string entry) (p : string) (e : entry) : gmap string entry :=
  <[p := e]> (fs_link m p).

Module os.

Definition path_exists (p : string) : M bool :=
  fun w => (Ok (fs_exists (fs w) p), log (EvExists p) w).

Definition path_isdir (p : string) : M bool :=
  fun w => (Ok (fs_isdir (fs w) p), log (EvIsdir p) w).

Definition listdir (p : string) : M (list string) :=
  fun w =>
    let w := log (EvListdir p) w in
    match fs w !! p with
    | Some (EDir names) => (Ok names, w)
    | Some (EFile _) =>
        (Raise (Exn NotADirectoryError ("[Errno 20] Not a directory: '" +:+ p +:+ "'")), w)
    | None =>
        (Raise (Exn FileNotFoundError ("[Errno 2] No such file or directory: '" +:+ p +:+ "'")), w)
    end.

(** A name made of slashes only: the root. *)
Definition is_root (p : string) : bool :=
  negb (Str.is_empty p) && Str.is_empty (Path.rstrip p).

(** [os.mkdir(p)] on the file system alone.  Slashes at the end of [p] do
    not count: the entry is made at the name without them.  The empty name
    is no file, a dot name is there already, and a name or a path beyond
    the limits of the system is refused. *)
Definition mkdir_fs (m : gmap string entry) (p : string) : result (gmap string entry) :=
  let q := Path.rstrip p in
  if fs_exists m q || is_root p
    then Raise (Exn FileExistsError ("[Errno 17] File exists: '" +:+ p +:+ "'"))
  else if has_nul p
    then Raise (Exn ValueError "embedded null byte")
  else if (PATH_MAX <=? String.length p)%nat
    then Raise (Exn OSError ("[Errno 36] File name too long: '" +:+ p +:+ "'"))
  else if Str.is_empty p
    then Raise (Exn FileNotFoundError ("[Errno 2] No such file or directory: '" +:+ p +:+ "'"))
  else if negb (Str.is_empty (Path.dirname q) || fs_isdir m (Path.dirname q))
    then
      if fs_exists m (Path.dirname q)
      then Raise (Exn NotADirectoryError ("[Errno 20] Not a directory: '" +:+ p +:+ "'"))
      else Raise (Exn FileNotFoundError
                    ("[Errno 2] No such file or directory: '" +:+ p +:+ "'"))
  else if String.eqb (Path.basename q) "." || String.eqb (Path.basename q) ".."
    then Raise (Exn FileExistsError ("[Errno 17] File exists: '" +:+ p +:+ "'"))
  else if (NAME_MAX <? String.length (Path.basename q))%nat
    then Raise (Exn OSError ("[Errno 36] File name too long: '" +:+ p +:+ "'"))
  else Ok (fs_put m q (EDir [])).

(** The last step of [makedirs]: [mkdir], forgiving an [OSError] when
    the directory is there; [os.path.isdir] does not count slashes at the
    end either. *)
Definition mkdir_exist_ok (m : gmap string entry) (p : string) : result (gmap string entry) :=
  match mkdir_fs m p with
  | Ok m' => Ok m'
  | Raise (Exn ValueError msg) => Raise (Exn ValueError msg)
  | Raise e => if fs_isdir m (Path.rstrip p) || is_root p then Ok m else Raise e
  end.

(** [os.makedirs(name, exist_ok=True)] on the file system alone; the
    recursion on the head of the path is bounded by the length of the name. *)
Fixpoint makedirs_fs (fuel : nat) (m : gmap string entry) (name : string)
  : result (gmap string entry) :=
  match fuel with
  | O => mkdir_exist_ok m name
  | S fuel' =>
      let '(head, tail) := Path.split name in
      let '(head, tail) := if Str.is_empty tail then Path.split head else (head, tail) in
      if negb (Str.is_empty head) && negb (Str.is_empty tail) && negb (fs_exists m head) then
        match makedirs_fs fuel' m head with
        | Ok m' => if String.eqb tail "." then Ok m' else mkdir_exist_ok m' name
        | Raise (Exn FileExistsError _) =>
            if String.eqb tail "." then Ok m else mkdir_exist_ok m name
        | Raise e => Raise e
        end
      else mkdir_exist_ok m name
  end.

Definition makedirs (name : string) : M unit :=
  fun w =>
    let w := log (EvMakedirs name) w in
    match makedirs_fs (String.length name) (fs w) name with
    | Ok m' => (Ok tt, set_fs m' w)
    | Raise e => (Raise e, w)
    end.

End os.

Module subprocess.

(** The command line when none of its words is [None]. *)
Fixpoint argv (cmd : list (option string)) : option (list string) :=
  match cmd with
  | [] => Some []
  | None :: _ => None
  | Some a :: rest =>
      match argv rest with
      | Some l => Some (a :: l)
      | None => None
      end
  end.

(** [subprocess.run(cmd, capture_output=True, check=True)], with
    [text=True] when [text] is set: the captured output is then decoded
    once the program has ended, before its exit status is looked at.  The
    exit status is zero when the call returns. *)
Definition run_checked (text : bool) (cmd : list (option string)) : M unit :=
  fun w =>
    let w := log (EvSpawn cmd) w in
    match argv cmd with
    | None => (Raise (Exn TypeError "expected str, bytes or os.PathLike object, not NoneType"), w)
    | Some args =>
        let program := default EmptyString (head args) in
        match spawn w args (fs w) with
        | NotFound =>
            (Raise (Exn FileNotFoundError
                      ("[Errno 2] No such file or directory: '" +:+ program +:+ "'")), w)
        | NotPermitted =>
            (Raise (Exn PermissionError
                      ("[Errno 13] Permission denied: '" +:+ program +:+ "'")), w)
        | NotExecutable =>
            (Raise (Exn OSError ("[Errno 8] Exec format error: '" +:+ program +:+ "'")), w)
        | Exited rc err garbled m' =>
            match (if text then garbled else None) with
            | Some reason => (Raise (Exn UnicodeDecodeError reason), set_fs m' w)
            | None =>
                if rc =? 0 then (Ok tt, set_fs m' w)
                else (Raise (CalledProcessError rc err), set_fs m' w)
            end
        end
    end.

End subprocess.

(** ** Pillow: the operations of [PIL.Image] the script calls *)

Module Image.

(** A picture in memory; [info_exif] is [info.get('exif')]. *)
Record t := {
  mode : img_mode;
  size : Z * Z;
  info_exif : option (list Byte.byte);
  px : pixels
}.

Definition MAX_IMAGE_PIXELS : Z := 89478485.

(** The number of pixels [Image.open] holds against its limit. *)
Definition pixel_count (sz : Z * Z) : Z := Z.max 1 (fst sz) * Z.max 1 (snd sz).

(** [Image.open(path)]; a picture of more than twice [MAX_IMAGE_PIXELS]
    pixels is refused. *)
Definition open (path : option string) : M t :=
  fun w =>
    let w := log (EvImageOpen path) w in
    match path with
    | None => (Raise (Exn AttributeError "'NoneType' object has no attribute 'read'"), w)
    | Some p =>
        match fs w !! p with
        | None =>
            (Raise (Exn FileNotFoundError
                      ("[Errno 2] No such file or directory: '" +:+ p +:+ "'")), w)
        | Some (EDir _) =>
            (Raise (Exn IsADirectoryError ("[Errno 21] Is a directory: '" +:+ p +:+ "'")), w)
        | Some (EFile (Blob _)) =>
            (Raise (Exn UnidentifiedImageError ("cannot identify image file '" +:+ p +:+ "'")), w)
        | Some (EFile (Picture f)) =>
            if 2 * MAX_IMAGE_PIXELS <? pixel_count (f_size f) then
              (Raise (Exn DecompressionBombError
                        ("Image size (" +:+ pretty (pixel_count (f_size f)) +:+
                         " pixels) exceeds limit of " +:+ pretty (2 * MAX_IMAGE_PIXELS) +:+
                         " pixels, could be decompression bomb DOS attack.")), w)
            else
              (Ok {| mode := f_mode f; size := f_size f;
                     info_exif := match f_exif f with [] => None | _ => Some (f_exif f) end;
                     px := f_pixels f |}, w)
        end
    end.

(** [im.convert(m)]: a new picture, same size, same [info]. *)
Definition convert (m : img_mode) (im : t) : t :=
  {| mode := m; size := size im; info_exif := info_exif im; px := PxConvert m (px im) |}.

(** [im.resize(sz, Image.Resampling.LANCZOS)] *)
Definition resize (sz : Z * Z) (im : t) : t :=
  {| mode := mode im; size := sz; info_exif := info_exif im; px := PxLanczos sz (px im) |}.

(** [dst.paste(im, (0, 0), mask)]: [dst] keeps its mode and size; the
    mask has to be as large as the pasted picture. *)
Definition paste (dst im mask : t) : M t :=
  if bool_decide (size im = size mask) then
    ret {| mode := mode dst; size := size dst; info_exif := info_exif dst;
           px := PxPaste (px dst) (px im) (px mask) |}
  else raise (Exn ValueError "images do not match").

(** Modes the JPEG encoder takes. *)
Definition jpeg_mode (m : img_mode) : bool :=
  match m with ModeL | ModeRGB | ModeCMYK => true | _ => false end.

Definition mode_name (m : img_mode) : string :=
  match m with
  | ModeL => "L" | ModeP => "P" | ModeRGB => "RGB" | ModeRGBA => "RGBA" | ModeCMYK => "CMYK"
  end.

Definition MAX_BYTES_IN_MARKER : Z := 65533.

(** The longest side the JPEG encoder takes. *)
Definition JPEG_MAX_DIMENSION : Z := 65500.

(** The encoder reads the quality into a C integer as wide as a pointer. *)
Definition SSIZE_MIN : Z := - 2 ^ 63.
Definition SSIZE_MAX : Z := 2 ^ 63 - 1.

(** What the JPEG plugin and its encoder refuse, in the order in which
    they look: an empty picture, a mode JPEG does not have, an EXIF payload
    that does not fit one marker, a quality that is no C integer, a side
    that is too long. *)
Definition encoder_error (im : t) (quality : Z) (payload : list Byte.byte) : option exn :=
  if (fst (size im) <=? 0) || (snd (size im) <=? 0) then
    Some (Exn ValueError "cannot write empty image as JPEG")
  else if negb (jpeg_mode (mode im)) then
    Some (Exn OSError ("cannot write mode " +:+ mode_name (mode im) +:+ " as JPEG"))
  else if MAX_BYTES_IN_MARKER <? Z.of_nat (length payload) then
    Some (Exn ValueError "EXIF data is too long")
  else if (quality <? SSIZE_MIN) || (SSIZE_MAX <? quality) then
    Some (Exn OverflowError "Python int too large to convert to C ssize_t")
  else if (JPEG_MAX_DIMENSION <? fst (size im)) || (JPEG_MAX_DIMENSION <? snd (size im)) then
    Some (Exn OSError "encoder error -2 when writing image file")
  else None.

(** [im.save(path, 'JPEG', quality=quality, exif=exif)]; [exif] is
    [None] when the keyword is not given, and then no segment is written.
    The file is opened for writing before anything is encoded: when the
    encoder then refuses, a file that was there before is left empty, and
    one that was not is removed again. *)
Definition save_jpeg (im : t) (path : string) (quality : Z) (exif : option (list Byte.byte))
  : M unit :=
  fun w =>
    let w := log (EvImageSave path) w in
    let payload := default [] exif in
    if negb (fs_writable (fs w) path) then (Raise (open_error (fs w) path), w)
    else
      match encoder_error im quality payload with
      | Some e =>
          (Raise e,
           if fs_exists (fs w) path
           then set_fs (fs_put (fs w) path (EFile (Blob []))) w
           else w)
      | None =>
          (Ok tt,
           set_fs (fs_put (fs w) path
                     (EFile (Picture {| f_format := JPEG; f_mode := mode im; f_size := size im;
                                        f_exif := payload;
                                        f_pixels := PxJpeg quality (px im) |}))) w)
      end.

End Image.

(** ** The script *)

Definition SOURCE_FOLDER : string := "snapchat_memories".
Definition OUTPUT_FOLDER : string := "snapchat_memories_combined".
Definition DEFAULT_JPEG_QUALITY : Z := 95.

(** [bool(l)] for a list *)
Definition truthy {A} (l : list A) : bool :=
  match l with [] => false | _ => true end.

(** [l[0] if l else None] *)
Definition first_or_none {A} (l : list A) : option A := head l.

(** [l[0]] *)
Definition index0 {A} (l : list A) : M A :=
  match l with
  | [] => raise (Exn IndexError "list index out of range")
  | x :: _ => ret x
  end.

Definition check_ffmpeg_available : M bool :=
  try_except
    (subprocess.run_checked false [Some "ffmpeg"; Some "-version"] ;;; ret true)
    (fun e =>
       match e with
       | CalledProcessError _ _ => ret false
       | Exn FileNotFoundError _ => ret false
       | _ => raise e
       end).

Record folder_info := {
  folder_name : string;
  folder_path : string;
  overlays : list string;
  base_image : option string;
  base_video : option string;
  is_image : bool;
  is_video : bool
}.

Definition is_overlay_file (f : string) : bool := Str.contains "-overlay.png" (Str.lower f).
Definition is_main_image (f : string) : bool := Str.contains "-main.jpg" (Str.lower f).
Definition is_main_video (f : string) : bool := Str.contains "-main.mp4" (Str.lower f).

(** The dictionary built for a folder that has overlays. *)
Definition make_folder_info (item item_path : string) (files : list string) : folder_info :=
  let overlay_files := List.filter is_overlay_file files in
  let main_images := List.filter is_main_image files in
  let main_videos := List.filter is_main_video files in
  {| folder_name := item;
     folder_path := item_path;
     overlays := List.map (Path.join item_path) overlay_files;
     base_image := Path.join item_path <$> first_or_none main_images;
     base_video := Path.join item_path <$> first_or_none main_videos;
     is_image := truthy main_images;
     is_video := truthy main_videos |}.

(** The body of the [for item in os.listdir(directory)] loop, run over the
    entries still to visit; [overlay_folders] is the list built so far. *)
Fixpoint scan_items (directory : string) (items : list string)
    (overlay_folders : list folder_info) : M (list folder_info) :=
  match items with
  | [] => ret overlay_folders
  | item :: rest =>
      let item_path := Path.join directory item in
      let* d := os.path_isdir item_path in
      if negb d then scan_items directory rest overlay_folders
      else
        let* files := os.listdir item_path in
        if truthy (List.filter is_overlay_file files) then
          scan_items directory rest (overlay_folders ++ [make_folder_info item item_path files])
        else scan_items directory rest overlay_folders
  end.

Definition find_overlay_folders (directory : string) : M (list folder_info) :=
  let* e := os.path_exists directory in
  if negb e then
    print ("❌ Folder '" +:+ directory +:+ "' does not exist!") ;;;
    ret []
  else
    print "🔍 Scanning for memories with overlays..." ;;;
    let* items := os.listdir directory in
    scan_items directory items [].

Definition combine_image (base_path : option string) (overlay_path output_path : string)
    (quality : Z) : M bool :=
  note (EvCombineImage base_path overlay_path output_path quality) ;;;
  try_except
    (let* base_img := Image.open base_path in
     let base := Image.convert ModeRGB base_img in
     let* overlay_img := Image.open (Some overlay_path) in
     let overlay := Image.convert ModeRGBA overlay_img in
     let overlay :=
       if bool_decide (Image.size overlay ≠ Image.size base)
       then Image.resize (Image.size base) overlay
       else overlay in
     let* base := Image.paste base overlay overlay in
     let exif_data := Image.info_exif base_img in
     (* [if exif_data:] is taken for a payload that is not empty *)
     (match exif_data with
      | Some (b :: bs) => Image.save_jpeg base output_path quality (Some (b :: bs))
      | _ => Image.save_jpeg base output_path quality None
      end) ;;;
     ret true)
    (fun e =>
       print ("      ❌ Error combining image: " +:+ exn_str e) ;;;
       ret false).

Definition ffmpeg_cmd (base_path : option string) (overlay_path output_path : string)
  : list (option string) :=
  [ Some "ffmpeg";
    Some "-i"; base_path;
    Some "-i"; Some overlay_path;
    Some "-filter_complex"; Some "[0:v][1:v]overlay=0:0";
    Some "-c:a"; Some "copy";
    Some "-y";
    Some output_path ].

Definition combine_video (base_path : option string) (overlay_path output_path : string)
  : M bool :=
  note (EvCombineVideo base_path overlay_path output_path) ;;;
  try_except
    (subprocess.run_checked true (ffmpeg_cmd base_path overlay_path output_path) ;;;
     ret true)
    (fun e =>
       match e with
       | CalledProcessError _ stderr =>
           print ("      ❌ ffmpeg error: " +:+ stderr) ;;;
           ret false
       | _ =>
           print ("      ❌ Error combining video: " +:+ exn_str e) ;;;
           ret false
       end).

Record counters := {
  processed_images : nat;
  processed_videos : nat;
  skipped_videos : nat;
  errors : nat
}.

Definition zero_counters : counters :=
  {| processed_images := 0; processed_videos := 0; skipped_videos := 0; errors := 0 |}.

Definition incr_processed_images (c : counters) : counters :=
  {| processed_images := S (processed_images c); processed_videos := processed_videos c;
     skipped_videos := skipped_videos c; errors := errors c |}.

Definition incr_processed_videos (c : counters) : counters :=
  {| processed_images := processed_images c; processed_videos := S (processed_videos c);
     skipped_videos := skipped_videos c; errors := errors c |}.

Definition incr_skipped_videos (c : counters) : counters :=
  {| processed_images := processed_images c; processed_videos := processed_videos c;
     skipped_videos := S (skipped_videos c); errors := errors c |}.

Definition incr_errors (c : counters) : counters :=
  {| processed_images := processed_images c; processed_videos := processed_videos c;
     skipped_videos := skipped_videos c; errors := S (errors c) |}.

Definition rule : string := Str.replicate 80 "="%char.

(** [f"[{idx}/{len(overlay_folders)}] 📁 {folder_name}"] *)
Definition progress_line (total idx : nat) (info : folder_info) : string :=
  "[" +:+ pretty idx +:+ "/" +:+ pretty total +:+ "] 📁 " +:+ folder_name info.

(** The body of the [for idx, folder_info in enumerate(overlay_folders, 1)]
    loop; [total] is [len(overlay_folders)] and [c] holds the four counters. *)
Definition process_folder (output_dir : string) (dry_run : bool) (quality : Z)
    (has_ffmpeg : bool) (total idx : nat) (info : folder_info) (c : counters) : M counters :=
  print (progress_line total idx info) ;;;
  let output_filename := folder_name info +:+ "_combined" in
  let* c :=
    if is_image info then
      let output_filename := output_filename +:+ ".jpg" in
      let output_path := Path.join output_dir output_filename in
      if dry_run then
        print ("   Would create: " +:+ output_filename) ;;;
        ret c
      else
        print ("   Creating: " +:+ output_filename) ;;;
        let* overlay := index0 (overlays info) in
        let* success := combine_image (base_image info) overlay output_path quality in
        if success then
          print "   ✅ Saved!" ;;;
          ret (incr_processed_images c)
        else ret (incr_errors c)
    else if is_video info then
      if negb has_ffmpeg then
        print "   ⏭️  Skipping video (ffmpeg not available)" ;;;
        ret (incr_skipped_videos c)
      else
        let output_filename := output_filename +:+ ".mp4" in
        let output_path := Path.join output_dir output_filename in
        if dry_run then
          print ("   Would create: " +:+ output_filename) ;;;
          ret c
        else
          print ("   Creating: " +:+ output_filename) ;;;
          let* overlay := index0 (overlays info) in
          let* success := combine_video (base_video info) overlay output_path in
          if success then
            print "   ✅ Saved!" ;;;
            ret (incr_processed_videos c)
          else ret (incr_errors c)
    else ret c in
  print EmptyString ;;;
  ret c.

Fixpoint process_folders (output_dir : string) (dry_run : bool) (quality : Z)
    (has_ffmpeg : bool) (total idx : nat) (overlay_folders : list folder_info)
    (c : counters) : M counters :=
  match overlay_folders with
  | [] => ret c
  | info :: rest =>
      let* c' := process_folder output_dir dry_run quality has_ffmpeg total idx info c in
      process_folders output_dir dry_run quality has_ffmpeg total (S idx) rest c'
  end.

(** The lines under SUMMARY. *)
Definition print_summary (output_dir : string) (dry_run has_ffmpeg : bool)
    (image_count video_count : nat) (c : counters) : M unit :=
  print rule ;;;
  print "SUMMARY" ;;;
  print rule ;;;
  if dry_run then
    print "⚠️  DRY RUN MODE - No files created!" ;;;
    print EmptyString ;;;
    print "📊 Would create:" ;;;
    print ("   📷 Images: " +:+ pretty image_count) ;;;
    print ("   🎥 Videos: " +:+ pretty (if has_ffmpeg then video_count else 0%nat)) ;;;
    when (0 <? skipped_videos c)%nat
      (print ("   ⏭️  Skipped videos: " +:+ pretty (skipped_videos c) +:+ " (ffmpeg not available)")) ;;;
    print EmptyString ;;;
    print "💡 To actually create the combined files, rerun with --execute flag:" ;;;
    print "   python combine-overlays.py --execute"
  else
    print "✅ Successfully created:" ;;;
    print ("   📷 Images: " +:+ pretty (processed_images c)) ;;;
    print ("   🎥 Videos: " +:+ pretty (processed_videos c)) ;;;
    when (0 <? skipped_videos c)%nat
      (print ("   ⏭️  Skipped videos: " +:+ pretty (skipped_videos c) +:+ " (ffmpeg not available)")) ;;;
    when (0 <? errors c)%nat
      (print ("   ❌ Errors: " +:+ pretty (errors c))) ;;;
    print EmptyString ;;;
    print ("📂 Files saved to: " +:+ output_dir +:+ "/").

Definition process_all_memories (source_dir output_dir : string) (dry_run : bool)
    (quality : Z) (has_ffmpeg : bool) : M unit :=
  let* overlay_folders := find_overlay_folders source_dir in
  if negb (truthy overlay_folders) then
    print "✅ No memories with overlays found!"
  else
    let image_count := length (List.filter is_image overlay_folders) in
    let video_count := length (List.filter is_video overlay_folders) in
    print (Str.newline +:+ "📊 Found " +:+ pretty (length overlay_folders) +:+ " memories with overlays:") ;;;
    print ("   📷 Images: " +:+ pretty image_count) ;;;
    print ("   🎥 Videos: " +:+ pretty video_count) ;;;
    when ((0 <? video_count)%nat && negb has_ffmpeg)
      (print (Str.newline +:+ "⚠️  WARNING: ffmpeg not found!") ;;;
       print "   Videos with overlays will be skipped." ;;;
       print "   Install ffmpeg to process videos: brew install ffmpeg (macOS)") ;;;
    print (Str.newline +:+ rule) ;;;
    print EmptyString ;;;
    when (negb dry_run) (os.makedirs output_dir) ;;;
    let* c := process_folders output_dir dry_run quality has_ffmpeg
                (length overlay_folders) 1 overlay_folders zero_counters in
    print_summary output_dir dry_run has_ffmpeg image_count video_count c.

(** What [parser.parse_args()] returns. *)
Record args := {
  execute : bool;
  quality : Z;
  skip_prompt : bool
}.

(** What [main] does once the prompt is answered with yes, or skipped. *)
Definition main_after_prompt (dry_run : bool) (quality : Z) : M unit :=
  let* has_ffmpeg := check_ffmpeg_available in
  when (negb has_ffmpeg)
    (print "⚠️  ffmpeg not found - videos will be skipped" ;;;
     print "   To process videos, install ffmpeg:" ;;;
     print "   macOS: brew install ffmpeg" ;;;
     print "   Linux: sudo apt-get install ffmpeg" ;;;
     print EmptyString) ;;;
  (if dry_run then
     print "⚠️  DRY RUN MODE - Preview only, no files will be created" ;;;
     print EmptyString
   else
     print ("Creating combined files in: " +:+ OUTPUT_FOLDER +:+ "/") ;;;
     print EmptyString) ;;;
  process_all_memories SOURCE_FOLDER OUTPUT_FOLDER dry_run quality has_ffmpeg.

Definition main (args : args) : M unit :=
  let dry_run := negb (execute args) in
  if negb ((1 <=? quality args) && (quality args <=? 100)) then
    print "❌ Quality must be between 1 and 100" ;;;
    raise (SystemExit 1)
  else
    print rule ;;;
    print "Combine Snapchat Overlays" ;;;
    print rule ;;;
    print EmptyString ;;;
    if negb (skip_prompt args) then
      print "This script combines Snapchat captions, text, emojis, and stickers" ;;;
      print "with your base photos and videos into single files." ;;;
      print EmptyString ;;;
      print "The combined files will be saved to a separate folder:" ;;;
      print ("  → " +:+ OUTPUT_FOLDER +:+ "/") ;;;
      print EmptyString ;;;
      print "Your original files in 'snapchat_memories/' will NOT be modified." ;;;
      print EmptyString ;;;
      let* response := input "Do you want to keep your Snapchat captions/text/stickers on your memories? (y/n): " in
      if negb (bool_decide (Str.lower response ∈ ["y"; "yes"])) then
        print "Cancelled."
      else
        print EmptyString ;;;
        main_after_prompt dry_run (quality args)
    else main_after_prompt dry_run (quality args).

(** ** Notions used to state the properties *)

(** What discovery promises about a folder it returns: it stands for a
    directory under the root whose listing has at least one overlay. *)
Inductive discovered (m : gmap string entry) (directory : string) (info : folder_info) : Prop :=
| Discovered (item : string) (files : list string) :
    m !! Path.join directory item = Some (EDir files) →
    List.filter is_overlay_file files ≠ [] →
    info = make_folder_info item (Path.join directory item) files →
    discovered m directory info.

(** Events that can change the file system. *)
Definition is_write (e : event) : bool :=
  match e with
  | EvMakedirs _ | EvImageSave _ | EvSpawn _ => true
  | _ => false
  end.

(** Events of a run that only looks and talks. *)
Definition is_read_or_print (e : event) : bool :=
  match e with
  | EvPrint _ | EvExists _ | EvIsdir _ | EvListdir _ => true
  | _ => false
  end.

(** Events of the video compositor. *)
Definition is_video_event (e : event) : bool :=
  match e with
  | EvCombineVideo _ _ _ | EvSpawn _ => true
  | _ => false
  end.

(** Events of the image compositor. *)
Definition is_image_event (e : event) : bool :=
  match e with
  | EvCombineImage _ _ _ _ | EvImageOpen _ | EvImageSave _ => true
  | _ => false
  end.

Definition is_print (e : event) : bool :=
  match e with EvPrint _ => true | _ => false end.

(** [w'] is [w] after some more events, all of them in [P]; the process
    table is the same, and so is the file system unless one of the events
    is a write. *)
Definition extends (P : event → bool) (w w' : world) : Prop :=
  spawn w' = spawn w ∧
  ∃ evs, trace w' = trace w ++ evs ∧
         forallb P evs = true ∧
         (forallb (λ e, negb (is_write e)) evs = true → fs w' = fs w).

(** Every run of [m] only emits events of [P]. *)
Definition emits {A} (P : event → bool) (m : M A) : Prop :=
  ∀ w, extends P w (m w).2.

(** [m] always returns. *)
Definition total {A} (m : M A) : Prop :=
  ∀ w, ∃ a, (m w).1 = Ok a.

(** The file the image compositor writes for base [f] and overlay [o]:
    a JPEG in mode RGB, as large as the base, carrying the EXIF payload of
    the base; the overlay is resampled to the size of the base when the
    sizes differ. *)
Definition composite (f o : img_file) (quality : Z) : img_file :=
  let overlay := PxConvert ModeRGBA (f_pixels o) in
  let overlay := if bool_decide (f_size o ≠ f_size f)
                 then PxLanczos (f_size f) overlay else overlay in
  {| f_format := JPEG;
     f_mode := ModeRGB;
     f_size := f_size f;
     f_exif := f_exif f;
     f_pixels := PxJpeg quality (PxPaste (PxConvert ModeRGB (f_pixels f)) overlay overlay) |}.

(** The derived kind of the data model, in its words: Image if a base
    image is present, Video if a base video is present and no base image
    is, Unclassified if neither base is present. *)
Inductive kind := Image_kind | Video_kind | Unclassified.

Definition kind_of (info : folder_info) : kind :=
  match base_image info, base_video info with
  | Some _, _ => Image_kind
  | None, Some _ => Video_kind
  | None, None => Unclassified
  end.

Definition is_video_kind (info : folder_info) : bool :=
  match kind_of info with Video_kind => true | _ => false end.

(** How one pass through the loop body may move the counters. *)
Definition step_ok (dry_run has_ffmpeg : bool) (info : folder_info) (c c' : counters) : Prop :=
  if is_image info then
    if dry_run then c' = c
    else c' = incr_processed_images c ∨ c' = incr_errors c
  else if is_video info then
    if negb has_ffmpeg then c' = incr_skipped_videos c
    else if dry_run then c' = c
    else c' = incr_processed_videos c ∨ c' = incr_errors c
  else c' = c.

(** Folders the loop has something to do for. *)
Definition has_base (info : folder_info) : bool := is_image info || is_video info.

(** Everything the loop counted. *)
Definition tally (c : counters) : nat :=
  (processed_images c + processed_videos c + skipped_videos c + errors c)%nat.

(** The counters after the loop body ran over each folder in turn. *)
Fixpoint steps_ok (dry_run has_ffmpeg : bool) (items : list folder_info) (c c' : counters) : Prop :=
  match items with
  | [] => c' = c
  | info :: rest =>
      ∃ c1, step_ok dry_run has_ffmpeg info c c1 ∧ steps_ok dry_run has_ffmpeg rest c1 c'
  end.

(** *** Looking at a run without the quality setting

    The quality ends up in two places: in the pixels of the pictures that
    were written, and in the mark the image compositor leaves in the
    trace.  Erasing it there gives what an observer sees who cannot tell
    one quality from another. *)














(** *** Reading a trace *)

Definition is_combine_image (e : event) : bool :=
  match e with EvCombineImage _ _ _ _ => true | _ => false end.

Definition is_combine_video (e : event) : bool :=
  match e with EvCombineVideo _ _ _ => true | _ => false end.

(** How often a run entered each compositor. *)
Definition attempted_images (t : list event) : nat := length (List.filter is_combine_image t).
Definition attempted_videos (t : list event) : nat := length (List.filter is_combine_video t).

(** The lines a run printed, in order. *)
Fixpoint printed (t : list event) : list string :=
  match t with
  | [] => []
  | EvPrint line :: t' => line :: printed t'
  | _ :: t' => printed t'
  end.

(** *** Two small worlds to run the script in *)

Definition picture (fmt : img_format) (m : img_mode) (width height : Z)
    (exif : list Byte.byte) (id : N) : entry :=
  EFile (Picture {| f_format := fmt; f_mode := m; f_size := (width, height);
                    f_exif := exif; f_pixels := PxSource id |}).

(** A stand-in for ffmpeg: it answers [-version], and burns an overlay
    onto anything that is not a picture or a directory. *)
Definition demo_spawn (cmd : list string) (m : gmap string entry) : proc_outcome :=
  match cmd with
  | [_; flag] => if String.eqb flag "-version" then Exited 0 EmptyString None m else NotFound
  | [_; _; base; _; _; _; _; _; _; _; out] =>
      match m !! base with
      | Some (EFile (Blob bytes)) =>
          Exited 0 EmptyString None (fs_put m out (EFile (Blob bytes)))
      | _ => Exited 1 (base +:+ ": Invalid data found when processing input") None m
      end
  | _ => NotFound
  end.

Definition demo_fs : gmap string entry :=
  list_to_map
    [ ("snapchat_memories",
       EDir ["memory1"; "memory2"; "memory3"; "both"; "broken"; "notes.txt"; "plain"]);
      ("snapchat_memories/memory1", EDir ["a-main.jpg"; "a-overlay.png"]);
      ("snapchat_memories/memory1/a-main.jpg",
       picture JPEG ModeRGB 100 100 [Byte.x45; Byte.x78; Byte.x69; Byte.x66] 1);
      ("snapchat_memories/memory1/a-overlay.png", picture PNG ModeRGBA 50 50 [] 2);
      ("snapchat_memories/memory2", EDir ["b-overlay.png"]);
      ("snapchat_memories/memory2/b-overlay.png", picture PNG ModeRGBA 50 50 [] 3);
      ("snapchat_memories/memory3", EDir ["c-main.mp4"; "c-overlay.png"]);
      ("snapchat_memories/memory3/c-main.mp4", EFile (Blob [Byte.x00]));
      ("snapchat_memories/memory3/c-overlay.png", picture PNG ModeRGBA 50 50 [] 4);
      ("snapchat_memories/both", EDir ["d-main.mp4"; "d-MAIN.JPG"; "d-overlay.png"]);
      ("snapchat_memories/both/d-main.mp4", EFile (Blob [Byte.x01]));
      ("snapchat_memories/both/d-MAIN.JPG", picture JPEG ModeRGB 64 48 [] 5);
      ("snapchat_memories/both/d-overlay.png", picture PNG ModeRGBA 64 48 [] 6);
      ("snapchat_memories/broken", EDir ["e-main.jpg"; "e-overlay.png"]);
      ("snapchat_memories/broken/e-main.jpg", EFile (Blob [Byte.x02]));
      ("snapchat_memories/broken/e-overlay.png", picture PNG ModeRGBA 50 50 [] 7);
      ("snapchat_memories/notes.txt", EFile (Blob []));
      ("snapchat_memories/plain", EDir ["f-main.jpg"]);
      ("snapchat_memories/plain/f-main.jpg", picture JPEG ModeRGB 10 20 [] 8);
      ("snapchat_memories_combined", EDir []) ].

Definition demo_world : world :=
  {| fs := demo_fs; spawn := demo_spawn; stdin := ["y"]; trace := [] |}.

(** One memory that has a base picture and a base video. *)
Definition clash_fs : gmap string entry :=
  list_to_map
    [ ("snapchat_memories", EDir ["memory"]);
      ("snapchat_memories/memory", EDir ["m-main.jpg"; "m-main.mp4"; "m-overlay.png"]);
      ("snapchat_memories/memory/m-main.jpg", picture JPEG ModeRGB 100 100 [] 1);
      ("snapchat_memories/memory/m-main.mp4", EFile (Blob [Byte.x00]));
      ("snapchat_memories/memory/m-overlay.png", picture PNG ModeRGBA 100 100 [] 2) ].

Definition clash_world : world :=
  {| fs := clash_fs; spawn := demo_spawn; stdin := []; trace := [] |}.

(** What discovery finds in the first world, and the world it leaves. *)
Definition demo_found : list folder_info :=
  match (find_overlay_folders SOURCE_FOLDER demo_world).1 with
  | Ok l => l
  | Raise _ => []
  end.

Definition demo_scanned : world := (find_overlay_folders SOURCE_FOLDER demo_world).2.

Definition demo_both : folder_info :=
  {| folder_name := "both";
     folder_path := "snapchat_memories/both";
     overlays := ["snapchat_memories/both/d-overlay.png"];
     base_image := Some "snapchat_memories/both/d-MAIN.JPG";
     base_video := Some "snapchat_memories/both/d-main.mp4";
     is_image := true;
     is_video := true |}.

Definition demo_video : folder_info :=
  {| folder_name := "memory3";
     folder_path := "snapchat_memories/memory3";
     overlays := ["snapchat_memories/memory3/c-overlay.png"];
     base_image := None;
     base_video := Some "snapchat_memories/memory3/c-main.mp4";
     is_image := false;
     is_video := true |}.

(** Events other than the entry into a compositor. *)
Definition is_no_entry (e : event) : bool :=
  negb (is_combine_image e) && negb (is_combine_video e).

(** Folders the loop hands to the video compositor when the tool is there. *)
Definition goes_to_video (info : folder_info) : bool := negb (is_image info) && is_video info.


(** *** Discovery, said without the loop *)

(** What [os.listdir] gives for a directory, and nothing for anything else. *)
Definition listing (m : gmap string entry) (p : string) : list string :=
  match m !! p with
  | Some (EDir names) => names
  | _ => []
  end.

(** An entry of the root that is a directory with at least one overlay. *)
Definition has_overlay (m : gmap string entry) (directory item : string) : bool :=
  fs_isdir m (Path.join directory item) &&
  truthy (List.filter is_overlay_file (listing m (Path.join directory item))).

(** The folders discovery is to return for the entries [names] of the root. *)
Definition expected_folders (m : gmap string entry) (directory : string) (names : list string)
  : list folder_info :=
  List.map
    (λ item, make_folder_info item (Path.join directory item)
               (listing m (Path.join directory item)))
    (List.filter (has_overlay m directory) names).

(** *** What a run may touch *)

(** [p] is the folder [root] or lies below it. *)
Definition under (root p : string) : bool :=
  String.eqb p root || String.prefix (root +:+ "/") p.

(** A spawned program that changes nothing but the file named by its last
    argument, and the directory holding it. *)
Definition writes_only_last_argument
    (sp : list string → gmap string entry → proc_outcome) : Prop :=
  ∀ cmd m rc err garbled m' p,
    sp cmd m = Exited rc err garbled m' →
    p ≠ List.last cmd EmptyString →
    p ≠ Path.dirname (List.last cmd EmptyString) →
    m' !! p = m !! p.

(** With such programs, [m] leaves every path of [P] as it was. *)
Definition spares {A} (P : string → bool) (m : M A) : Prop :=
  ∀ w, writes_only_last_argument (spawn w) →
       spawn (m w).2 = spawn w ∧
       ∀ p, P p = true → fs (m w).2 !! p = fs w !! p.

(** A set of paths that holds a path whenever it holds its directory. *)
Definition up_closed (P : string → bool) : Prop :=
  ∀ p, P (Path.dirname p) = true → P p = true.

(** [m] raises nothing that [except Exception] lets through. *)
Definition only_exceptions {A} (m : M A) : Prop :=
  ∀ w e w', m w = (Raise e, w') → is_Exception e = true.



(** A picture file within the limit [Image.open] puts on the number of
    pixels. *)
Definition opens (f : img_file) : Prop :=
  Image.pixel_count (f_size f) ≤ 2 * Image.MAX_IMAGE_PIXELS.

(** A picture file whose sides and EXIF payload the JPEG encoder takes. *)
Definition fits_jpeg (f : img_file) : Prop :=
  0 < fst (f_size f) ≤ Image.JPEG_MAX_DIMENSION ∧
  0 < snd (f_size f) ≤ Image.JPEG_MAX_DIMENSION ∧
  Z.of_nat (length (f_exif f)) ≤ Image.MAX_BYTES_IN_MARKER.

(** A quality the encoder can read. *)
Definition fits_ssize (quality : Z) : Prop :=
  Image.SSIZE_MIN ≤ quality ≤ Image.SSIZE_MAX.

(** The same picture file with another EXIF payload. *)
Definition with_exif (exif : list Byte.byte) (f : img_file) : img_file :=
  {| f_format := f_format f; f_mode := f_mode f; f_size := f_size f;
     f_exif := exif; f_pixels := f_pixels f |}.

(** The picture in memory that [Image.open] makes of a file. *)
Definition loaded (f : img_file) : Image.t :=
  {| Image.mode := f_mode f; Image.size := f_size f;
     Image.info_exif := match f_exif f with [] => None | _ => Some (f_exif f) end;
     Image.px := f_pixels f |}.

(** The picture the script hands to the encoder for the base [f] and the
    overlay [o]. *)
Definition pasted (f o : img_file) : Image.t :=
  let base := Image.convert ModeRGB (loaded f) in
  let overlay := Image.convert ModeRGBA (loaded o) in
  let overlay :=
    if bool_decide (Image.size overlay ≠ Image.size base)
    then Image.resize (Image.size base) overlay else overlay in
  {| Image.mode := Image.mode base; Image.size := Image.size base;
     Image.info_exif := Image.info_exif base;
     Image.px := PxPaste (Image.px base) (Image.px overlay) (Image.px overlay) |}.

(** Events of the prompt: printed lines and the one question. *)
Definition is_print_or_input (e : event) : bool :=
  match e with
  | EvPrint _ | EvInput _ => true
  | _ => false
  end.

(** The probe [ffmpeg -version]. *)
Definition is_probe (e : event) : bool :=
  match e with
  | EvSpawn [Some prog; Some flag] => String.eqb prog "ffmpeg" && String.eqb flag "-version"
  | _ => false
  end.

(** Events that are the probe, or no event of the video compositor. *)
Definition is_probe_or_no_video (e : event) : bool :=
  is_probe e || negb (is_video_event e).

(** The demonstration files on a machine without ffmpeg. *)
Definition bare_world : world :=
  {| fs := demo_fs; spawn := λ _ _, NotFound; stdin := []; trace := [] |}.

(** * Properties *)

(** ** Running the primitives *)

Lemma fs_isdir_true m p : fs_isdir m p = true → ∃ names, m !! p = Some (EDir names).
Proof.
  unfold fs_isdir. destruct (m !! p) as [[names|c]|]; try discriminate. eauto.
Qed.

Lemma truthy_true {A} (l : list A) : truthy l = true ↔ l ≠ [].
Proof. destruct l; simpl; split; congruence. Qed.

(** ** Discovery *)

Lemma scan_items_spec directory items : ∀ acc w r w',
  scan_items directory items acc w = (r, w') →
  fs w' = fs w ∧
  ∀ l, r = Ok l → ∃ new, l = acc ++ new ∧ Forall (discovered (fs w) directory) new.
Proof.
  induction items as [|item rest IH]; intros acc w r w' H; simpl in H.
  - injection H as <- <-. split; [done|]. intros l [= <-].
    exists []. by rewrite app_nil_r.
  - unfold bind, os.path_isdir, os.listdir in H. simpl in H.
    destruct (fs_isdir (fs w) (Path.join directory item)) eqn:Hd; simpl in H.
    + apply fs_isdir_true in Hd as [files Hf]. rewrite Hf in H.
      destruct (truthy (List.filter is_overlay_file files)) eqn:Ht.
      * apply IH in H as [Hfs Hl]. simpl in *. split; [done|].
        intros l Hr. destruct (Hl l Hr) as (new & -> & Hnew).
        exists (make_folder_info item (Path.join directory item) files :: new).
        split; [by rewrite <- app_assoc|].
        constructor; [|done].
        econstructor; [exact Hf| |reflexivity]. by apply truthy_true.
      * apply IH in H as [Hfs Hl]. simpl in *. done.
    + apply IH in H as [Hfs Hl]. simpl in *. done.
Qed.

Lemma find_overlay_folders_spec directory w r w' :
  find_overlay_folders directory w = (r, w') →
  fs w' = fs w ∧ ∀ l, r = Ok l → Forall (discovered (fs w) directory) l.
Proof.
  unfold find_overlay_folders, bind, os.path_exists, print, ret, os.listdir. simpl.
  destruct (fs_exists (fs w) directory) eqn:He; simpl.
  - destruct (fs w !! directory) as [[names|c]|] eqn:Hl.
    + intros H. apply scan_items_spec in H as [Hfs Hl']. simpl in *.
      split; [done|]. intros l Hr. destruct (Hl' l Hr) as (new & -> & Hnew). done.
    + intros [= <- <-]. split; [done|]. discriminate.
    + intros [= <- <-]. split; [done|]. discriminate.
  - intros [= <- <-]. split; [done|]. intros l [= <-]. constructor.
Qed.

Lemma discovered_overlays m directory info :
  discovered m directory info → overlays info ≠ [].
Proof.
  intros [item files _ Hne ->]. simpl.
  destruct (List.filter is_overlay_file files); [done|discriminate].
Qed.

(** C3. Discovery leaves out every subdirectory without an overlay file,
    whatever else the subdirectory holds, and every folder it returns has a
    non-empty list of overlays. *)
Theorem C3_discover_keeps_only_overlay_folders directory w items w' :
  find_overlay_folders directory w = (Ok items, w') →
  Forall (λ info, overlays info ≠ []) items ∧
  ∀ item files,
    fs w !! Path.join directory item = Some (EDir files) →
    List.filter is_overlay_file files = [] →
    ∀ info, info ∈ items → folder_path info ≠ Path.join directory item.
Proof.
  intros H. apply find_overlay_folders_spec in H as [_ Hl].
  specialize (Hl items eq_refl). split.
  - eapply Forall_impl; [exact Hl|]. intros info. apply discovered_overlays.
  - intros item files Hdir Hnone info Hin Hpath.
    rewrite Forall_forall in Hl. destruct (Hl info Hin) as [item' files' Hdir' Hne ->].
    simpl in Hpath. rewrite Hpath in Hdir'. congruence.
Qed.

(** C4. When the root does not exist, discovery returns the empty list
    without raising: all it does is test the path and print one line. *)
Theorem C4_missing_root_gives_empty_list directory w :
  fs w !! directory = None →
  find_overlay_folders directory w =
    (Ok [], log (EvPrint ("❌ Folder '" +:+ directory +:+ "' does not exist!"))
              (log (EvExists directory) w)).
Proof.
  intros H. unfold find_overlay_folders, bind, os.path_exists, fs_exists.
  rewrite H. reflexivity.
Qed.

(** C7. A quality outside 1..100 makes [main] exit with status 1 right
    after printing the complaint: the trace gains that one line, so there
    was no scan, no prompt, no process and no write. *)
Theorem C7_quality_out_of_range_exits_first a w :
  ¬ (1 ≤ quality a ≤ 100) →
  main a w = (Raise (SystemExit 1), log (EvPrint "❌ Quality must be between 1 and 100") w).
Proof.
  intros H. unfold main.
  destruct ((1 <=? quality a) && (quality a <=? 100)) eqn:Hq.
  - apply andb_true_iff in Hq as [H1 H2]. lia.
  - reflexivity.
Qed.

(** ** Footprints *)

Lemma bind_note {A} e (k : unit → M A) w : bind (note e) k w = k tt (log e w).
Proof. reflexivity. Qed.

Lemma extends_refl P w : extends P w w.
Proof. split; [done|]. exists []. by rewrite app_nil_r. Qed.

Lemma extends_trans P w1 w2 w3 : extends P w1 w2 → extends P w2 w3 → extends P w1 w3.
Proof.
  intros (Hs1 & evs1 & Ht1 & HP1 & Hf1) (Hs2 & evs2 & Ht2 & HP2 & Hf2).
  split; [congruence|]. exists (evs1 ++ evs2).
  rewrite Ht2, Ht1, <- app_assoc, !forallb_app, HP1, HP2. repeat split.
  intros [H1 H2]%andb_true_iff. rewrite Hf2, Hf1; done.
Qed.

Lemma extends_weaken (P Q : event → bool) w w' :
  (∀ e, P e = true → Q e = true) → extends P w w' → extends Q w w'.
Proof.
  intros HPQ (Hs & evs & Ht & HP & Hf). split; [done|]. exists evs.
  repeat split; try done. rewrite forallb_forall in *. auto.
Qed.

Lemma extends_log (P : event → bool) e w :
  P e = true → is_write e = false → extends P w (log e w).
Proof.
  intros HP Hw. split; [done|]. exists [e]. simpl. rewrite HP. done.
Qed.

Lemma extends_log_write (P : event → bool) e w m :
  P e = true → is_write e = true → extends P w (set_fs m (log e w)).
Proof.
  intros HP Hw. split; [done|]. exists [e]. simpl. rewrite HP, Hw. done.
Qed.

Lemma extends_fs P w w' :
  (∀ e, P e = true → is_write e = false) → extends P w w' → fs w' = fs w.
Proof.
  intros HP (_ & evs & _ & HPe & Hf). apply Hf.
  rewrite forallb_forall in *. intros e He. by rewrite (HP e (HPe e He)).
Qed.

Lemma emits_ret {A} P (a : A) : emits P (ret a).
Proof. intros w. apply extends_refl. Qed.

Lemma emits_raise {A} P e : emits P (raise (A:=A) e).
Proof. intros w. apply extends_refl. Qed.

Lemma emits_bind {A B} P (m : M A) (k : A → M B) :
  emits P m → (∀ a, emits P (k a)) → emits P (bind m k).
Proof.
  intros Hm Hk w. unfold bind. specialize (Hm w).
  destruct (m w) as [[a|e] w1]; simpl in *; [|done].
  eapply extends_trans; [exact Hm|apply Hk].
Qed.

Lemma emits_try_except {A} P (m : M A) (h : exn → M A) :
  emits P m → (∀ e, emits P (h e)) → emits P (try_except m h).
Proof.
  intros Hm Hh w. unfold try_except. specialize (Hm w).
  destruct (m w) as [[a|e] w1]; simpl in *; [done|].
  destruct (is_Exception e); [|done].
  eapply extends_trans; [exact Hm|apply Hh].
Qed.

Lemma emits_weaken {A} (P Q : event → bool) (m : M A) :
  (∀ e, P e = true → Q e = true) → emits P m → emits Q m.
Proof. intros HPQ Hm w. eapply extends_weaken; [exact HPQ|apply Hm]. Qed.

Lemma emits_print (P : event → bool) line : P (EvPrint line) = true → emits P (print line).
Proof. intros HP w. by apply extends_log. Qed.

Lemma emits_when P b (m : M unit) : emits P m → emits P (when b m).
Proof. intros Hm. destruct b; [done|apply emits_ret]. Qed.

Lemma emits_path_exists (P : event → bool) p :
  P (EvExists p) = true → emits P (os.path_exists p).
Proof. intros HP w. by apply extends_log. Qed.

Lemma emits_path_isdir (P : event → bool) p :
  P (EvIsdir p) = true → emits P (os.path_isdir p).
Proof. intros HP w. by apply extends_log. Qed.

Lemma emits_listdir (P : event → bool) p :
  P (EvListdir p) = true → emits P (os.listdir p).
Proof.
  intros HP w. unfold os.listdir. simpl.
  destruct (fs w !! p) as [[names|c]|]; by apply extends_log.
Qed.

Lemma emits_makedirs (P : event → bool) p :
  P (EvMakedirs p) = true → emits P (os.makedirs p).
Proof.
  intros HP w. unfold os.makedirs. simpl.
  destruct (os.makedirs_fs _ _ _); simpl.
  - by apply extends_log_write.
  - replace (log (EvMakedirs p) w) with (set_fs (fs w) (log (EvMakedirs p) w)) by done.
    by apply extends_log_write.
Qed.

Lemma emits_image_open (P : event → bool) p :
  P (EvImageOpen p) = true → emits P (Image.open p).
Proof.
  intros HP w. unfold Image.open. simpl.
  destruct p as [p|]; [|by apply extends_log].
  destruct (fs w !! p) as [[names|[f|bs]]|]; try case_match; by apply extends_log.
Qed.

Lemma emits_image_paste P dst im mask : emits P (Image.paste dst im mask).
Proof. unfold Image.paste. case_bool_decide; [apply emits_ret|apply emits_raise]. Qed.

Lemma emits_save_jpeg (P : event → bool) im p q exif :
  P (EvImageSave p) = true → emits P (Image.save_jpeg im p q exif).
Proof.
  intros HP w. unfold Image.save_jpeg. simpl.
  repeat case_match; simpl; try by apply extends_log_write.
  all: replace (log (EvImageSave p) w) with (set_fs (fs w) (log (EvImageSave p) w)) by done.
  all: by apply extends_log_write.
Qed.

Lemma emits_run_checked (P : event → bool) text cmd :
  P (EvSpawn cmd) = true → emits P (subprocess.run_checked text cmd).
Proof.
  intros HP w. unfold subprocess.run_checked. simpl.
  repeat case_match; simpl; try by apply extends_log_write.
  all: replace (log (EvSpawn cmd) w) with (set_fs (fs w) (log (EvSpawn cmd) w)) by done.
  all: by apply extends_log_write.
Qed.

Lemma emits_index0 {A} P (l : list A) : emits P (index0 l).
Proof. destruct l; [apply emits_raise|apply emits_ret]. Qed.

Lemma emits_note (P : event → bool) e :
  P e = true → is_write e = false → emits P (note e).
Proof. intros HP Hw w. by apply extends_log. Qed.

Ltac emits_step :=
  first
    [ apply emits_ret
    | apply emits_raise
    | apply emits_index0
    | apply emits_image_paste
    | apply emits_print; reflexivity
    | apply emits_note; reflexivity
    | apply emits_path_exists; reflexivity
    | apply emits_path_isdir; reflexivity
    | apply emits_listdir; reflexivity
    | apply emits_makedirs; reflexivity
    | apply emits_image_open; reflexivity
    | apply emits_save_jpeg; reflexivity
    | apply emits_run_checked; reflexivity
    | apply emits_when
    | apply emits_bind; [|intros ?]
    | apply emits_try_except; [|intros ?]
    | case_match ].

Ltac emits_auto := repeat emits_step.

Lemma emits_scan_items directory items : ∀ acc,
  emits is_read_or_print (scan_items directory items acc).
Proof.
  induction items as [|item rest IH]; intros acc; simpl; [apply emits_ret|].
  apply emits_bind; [emits_auto|]. intros d.
  destruct (negb d); [apply IH|].
  apply emits_bind; [emits_auto|]. intros files.
  case_match; apply IH.
Qed.

Lemma emits_find_overlay_folders directory :
  emits is_read_or_print (find_overlay_folders directory).
Proof.
  unfold find_overlay_folders.
  apply emits_bind; [emits_auto|]. intros e.
  destruct (negb e); [emits_auto|].
  apply emits_bind; [emits_auto|]. intros _.
  apply emits_bind; [emits_auto|]. intros items. apply emits_scan_items.
Qed.

Lemma emits_combine_image base ov out q :
  emits (λ e, is_image_event e || is_print e) (combine_image base ov out q).
Proof. unfold combine_image. emits_auto. Qed.

Lemma emits_combine_video base ov out :
  emits (λ e, is_video_event e || is_print e) (combine_video base ov out).
Proof. unfold combine_video. emits_auto. Qed.

(** A dry run of the loop body only prints. *)
Lemma emits_process_folder_dry output_dir quality has_ffmpeg total idx info c :
  emits is_print (process_folder output_dir true quality has_ffmpeg total idx info c).
Proof. unfold process_folder. emits_auto. Qed.

(** Whatever the mode, the loop body stays within the events of the two
    compositors and printing. *)
Lemma emits_process_folder output_dir dry_run quality has_ffmpeg total idx info c :
  emits (λ e, is_image_event e || is_video_event e || is_print e)
    (process_folder output_dir dry_run quality has_ffmpeg total idx info c).
Proof.
  unfold process_folder.
  apply emits_bind; [emits_auto|]. intros _.
  apply emits_bind; [|intros ?; emits_auto].
  repeat case_match; emits_auto.
Qed.

(** Without the video tool, and for a folder taken as a picture, the loop
    body emits no event of the video compositor. *)
Lemma emits_process_folder_no_video output_dir dry_run quality has_ffmpeg total idx info c :
  is_image info = true ∨ has_ffmpeg = false →
  emits (λ e, negb (is_video_event e))
    (process_folder output_dir dry_run quality has_ffmpeg total idx info c).
Proof.
  intros H. unfold process_folder.
  apply emits_bind; [emits_auto|]. intros _.
  apply emits_bind; [|intros ?; emits_auto].
  destruct (is_image info) eqn:Hi.
  - emits_auto.
  - destruct H as [?| ->]; [done|]. emits_auto.
Qed.

(** ** The image compositor *)

Lemma only_exceptions_ret {A} (a : A) : only_exceptions (ret a).
Proof. by intros w e w' [=]. Qed.

Lemma only_exceptions_bind {A B} (m : M A) (k : A → M B) :
  only_exceptions m → (∀ a, only_exceptions (k a)) → only_exceptions (bind m k).
Proof.
  intros Hm Hk w e w'. unfold bind. destruct (m w) as [[a|e0] w1] eqn:Hmw.
  - apply Hk.
  - intros [= <- <-]. by apply (Hm w e0 w1).
Qed.

Lemma only_exceptions_open p : only_exceptions (Image.open p).
Proof.
  intros w e w'. unfold Image.open. simpl.
  repeat case_match; intros [= <- <-]; done.
Qed.

Lemma only_exceptions_paste dst im mask : only_exceptions (Image.paste dst im mask).
Proof.
  intros w e w'. unfold Image.paste, ret, raise.
  case_match; intros [= <- <-]; done.
Qed.

Lemma encoder_error_is_Exception im q payload e :
  Image.encoder_error im q payload = Some e → is_Exception e = true.
Proof. unfold Image.encoder_error. repeat case_match; by intros [= <-]. Qed.

Lemma open_error_is_Exception m p : is_Exception (open_error m p) = true.
Proof. unfold open_error. by repeat case_match. Qed.

Lemma only_exceptions_save_jpeg im p q exif : only_exceptions (Image.save_jpeg im p q exif).
Proof.
  intros w e w'. unfold Image.save_jpeg. cbv zeta.
  destruct (negb _); [intros [= <- <-]; apply open_error_is_Exception|].
  destruct (Image.encoder_error _ _ _) as [e0|] eqn:He; [|discriminate].
  intros [= <- <-]. by apply (encoder_error_is_Exception _ _ _ _ He).
Qed.

Lemma total_try_except {A} (body : M A) (h : exn → M A) :
  only_exceptions body → (∀ e, total (h e)) → total (try_except body h).
Proof.
  intros Hb Hh w. unfold try_except.
  destruct (body w) as [[a|e] w1] eqn:Hbw; [by exists a|].
  rewrite (Hb w e w1 Hbw). apply Hh.
Qed.

Lemma combine_image_total base ov out q : total (combine_image base ov out q).
Proof.
  intros w. unfold combine_image. rewrite bind_note.
  apply total_try_except.
  - apply only_exceptions_bind; [apply only_exceptions_open|]. intros base_img. cbv zeta.
    apply only_exceptions_bind; [apply only_exceptions_open|]. intros overlay_img.
    apply only_exceptions_bind; [apply only_exceptions_paste|]. intros pasted.
    apply only_exceptions_bind; [|intros _; apply only_exceptions_ret].
    repeat case_match; apply only_exceptions_save_jpeg.
  - intros e w'. by exists false.
Qed.

Lemma fs_put_lookup m p e : fs_put m p e !! p = Some e.
Proof. unfold fs_put. apply lookup_insert_eq. Qed.

Lemma fs_writable_not_dir m p : fs_writable m p = true → fs_isdir m p = false.
Proof.
  unfold fs_writable. intros [_ H]%andb_true_iff. by apply negb_true_iff.
Qed.

Lemma bind_ok_inv {A B} (m : M A) (k : A → M B) w b w' :
  bind m k w = (Ok b, w') → ∃ a w1, m w = (Ok a, w1) ∧ k a w1 = (Ok b, w').
Proof. unfold bind. destruct (m w) as [[a|e] w1]; [eauto|discriminate]. Qed.

Lemma try_except_ok_inv {A} (body : M A) (h : exn → M A) w a w' :
  try_except body h w = (Ok a, w') →
  body w = (Ok a, w') ∨ ∃ e w1, body w = (Raise e, w1) ∧ h e w1 = (Ok a, w').
Proof.
  unfold try_except. destruct (body w) as [[b|e] w1]; [by left|].
  destruct (is_Exception e); [|discriminate]. right. eauto.
Qed.

Lemma opens_spec f :
  opens f ↔ (2 * Image.MAX_IMAGE_PIXELS <? Image.pixel_count (f_size f)) = false.
Proof. unfold opens. rewrite Z.ltb_ge. done. Qed.

Lemma image_open_picture p f w :
  fs w !! p = Some (EFile (Picture f)) →
  opens f →
  Image.open (Some p) w = (Ok (loaded f), log (EvImageOpen (Some p)) w).
Proof.
  intros Hp Hf%opens_spec. unfold Image.open. cbv zeta. cbn [fs log].
  by rewrite Hp, Hf.
Qed.

Lemma image_open_ok_inv path w im w' :
  Image.open path w = (Ok im, w') →
  ∃ p f, path = Some p ∧ fs w !! p = Some (EFile (Picture f)) ∧ opens f ∧
         im = loaded f ∧ w' = log (EvImageOpen path) w.
Proof.
  unfold Image.open. cbv zeta. cbn [fs log].
  destruct path as [p|]; [|discriminate].
  destruct (fs w !! p) as [[?|[f|?]]|] eqn:Hp; try discriminate.
  destruct (_ <? _) eqn:Hf; [discriminate|].
  intros [= <- <-]. exists p, f. by rewrite opens_spec.
Qed.

Lemma encoder_error_none im quality payload f :
  fits_jpeg f →
  fits_ssize quality →
  Image.jpeg_mode (Image.mode im) = true →
  Image.size im = f_size f →
  payload = f_exif f →
  Image.encoder_error im quality payload = None.
Proof.
  intros (Hw & Hh & Hex) Hq Hmode Hsize ->. unfold fits_ssize in Hq.
  unfold Image.encoder_error. rewrite Hsize, Hmode. cbn [negb].
  rewrite (proj2 (Z.leb_gt _ _)) by lia. rewrite (proj2 (Z.leb_gt _ _)) by lia.
  cbn [orb]. rewrite (proj2 (Z.ltb_ge _ _)) by lia.
  rewrite (proj2 (Z.ltb_ge _ _)) by lia. rewrite (proj2 (Z.ltb_ge _ _)) by lia.
  cbn [orb]. rewrite (proj2 (Z.ltb_ge _ _)) by lia.
  by rewrite (proj2 (Z.ltb_ge _ _)) by lia.
Qed.

Lemma encoder_error_none_inv im quality payload f :
  Image.encoder_error im quality payload = None →
  Image.size im = f_size f →
  payload = f_exif f →
  fits_jpeg f ∧ fits_ssize quality.
Proof.
  intros H Hsize ->. unfold Image.encoder_error in H. rewrite Hsize in H.
  unfold fits_jpeg, fits_ssize.
  repeat match type of H with
  | (if ?c then _ else _) = _ => destruct c eqn:?; [discriminate|]
  end.
  repeat match goal with
  | H : (_ || _) = false |- _ => apply orb_false_iff in H as [? ?]
  | H : (_ <=? _) = false |- _ => apply Z.leb_gt in H
  | H : (_ <? _) = false |- _ => apply Z.ltb_ge in H
  end.
  lia.
Qed.

Lemma save_jpeg_ok_inv im path quality exif w w' :
  Image.save_jpeg im path quality exif w = (Ok tt, w') →
  fs_writable (fs w) path = true ∧
  Image.encoder_error im quality (default [] exif) = None ∧
  fs w' =
    fs_put (fs w) path
      (EFile (Picture {| f_format := JPEG; f_mode := Image.mode im; f_size := Image.size im;
                         f_exif := default [] exif;
                         f_pixels := PxJpeg quality (Image.px im) |})).
Proof.
  unfold Image.save_jpeg. cbv zeta. cbn [fs log].
  destruct (fs_writable _ _); [|discriminate]. cbn [negb].
  destruct (Image.encoder_error _ _ _); [discriminate|].
  by intros [= <-].
Qed.

(** Every condition of a successful call, and what it leaves. *)
Lemma combine_image_true base_path overlay_path output_path quality w w' :
  combine_image base_path overlay_path output_path quality w = (Ok true, w') →
  ∃ bp f o,
    base_path = Some bp ∧
    fs w !! bp = Some (EFile (Picture f)) ∧
    fs w !! overlay_path = Some (EFile (Picture o)) ∧
    opens f ∧ opens o ∧ fits_jpeg f ∧ fits_ssize quality ∧
    fs_writable (fs w) output_path = true ∧
    fs w' = fs_put (fs w) output_path (EFile (Picture (composite f o quality))).
Proof.
  intros H. unfold combine_image in H. rewrite bind_note in H.
  apply try_except_ok_inv in H as [H|(e & w1 & _ & H)]; [|discriminate].
  apply bind_ok_inv in H as (base_img & w1 & Hopen1 & H). cbv zeta in H.
  apply bind_ok_inv in H as (overlay_img & w2 & Hopen2 & H).
  apply bind_ok_inv in H as (im & w3 & Hpaste & H).
  apply bind_ok_inv in H as ([] & w4 & Hsave & [= <-]).
  apply image_open_ok_inv in Hopen1 as (bp & f & -> & Hb & Hf & -> & ->).
  apply image_open_ok_inv in Hopen2 as (p & o & [= <-] & Ho & Hoo & -> & ->).
  unfold Image.paste in Hpaste. rewrite bool_decide_eq_true_2 in Hpaste by done.
  injection Hpaste as <- <-. fold (pasted f o) in Hsave.
  exists bp, f, o. split; [done|]. split; [done|]. split; [done|].
  split; [done|]. split; [done|].
  assert (Hexif : ∀ im exif w0 w5,
    fs w0 = fs w →
    Image.mode im = ModeRGB →
    Image.size im = f_size f →
    Image.px im = Image.px (pasted f o) →
    default [] exif = f_exif f →
    Image.save_jpeg im output_path quality exif w0 = (Ok tt, w5) →
    fits_jpeg f ∧ fits_ssize quality ∧ fs_writable (fs w) output_path = true ∧
    fs w5 = fs_put (fs w) output_path (EFile (Picture (composite f o quality)))).
  { intros im exif w0 w5 Hw0 Hmode Hsize Hpx Hex Hs.
    apply save_jpeg_ok_inv in Hs as (Hw & Henc & Hfs).
    rewrite Hw0 in Hw, Hfs.
    destruct (encoder_error_none_inv _ _ _ f Henc) as [? ?]; [done|done|].
    split; [done|]. split; [done|]. split; [done|].
    rewrite Hfs, Hex, Hmode, Hsize, Hpx. unfold composite, pasted. simpl.
    by case_bool_decide. }
  cbn [loaded Image.info_exif Image.convert] in Hsave.
  destruct (f_exif f) as [|b bs] eqn:He.
  - eapply Hexif in Hsave; try reflexivity. by destruct Hsave as (? & ? & ? & ?).
  - eapply Hexif in Hsave; try reflexivity. by destruct Hsave as (? & ? & ? & ?).
Qed.

Lemma combine_image_success base_path overlay_path output_path quality w w' :
  combine_image base_path overlay_path output_path quality w = (Ok true, w') →
  ∃ bp f o,
    base_path = Some bp ∧
    fs w !! bp = Some (EFile (Picture f)) ∧
    fs w !! overlay_path = Some (EFile (Picture o)) ∧
    fs w' = fs_put (fs w) output_path (EFile (Picture (composite f o quality))).
Proof.
  intros H.
  destruct (combine_image_true _ _ _ _ _ _ H) as (bp & f & o & ? & ? & ? & _ & _ & _ & _ & _ & ?).
  by exists bp, f, o.
Qed.

(** What is enough for the image compositor to succeed. *)
Lemma combine_image_succeeds base_path overlay_path output_path quality w f o :
  fs w !! base_path = Some (EFile (Picture f)) →
  fs w !! overlay_path = Some (EFile (Picture o)) →
  opens f →
  opens o →
  fits_jpeg f →
  fits_ssize quality →
  fs_writable (fs w) output_path = true →
  ∃ w', combine_image (Some base_path) overlay_path output_path quality w = (Ok true, w').
Proof.
  intros Hb Ho Hof Hoo Hfit Hq Hw.
  unfold combine_image. rewrite bind_note. unfold try_except, bind.
  erewrite image_open_picture; [|exact Hb|exact Hof]. cbv zeta.
  erewrite image_open_picture; [|exact Ho|exact Hoo].
  unfold Image.paste. rewrite bool_decide_eq_true_2 by done. unfold ret.
  assert (Hsave : ∀ im exif w0,
    fs w0 = fs w →
    Image.mode im = ModeRGB →
    Image.size im = f_size f →
    default [] exif = f_exif f →
    ∃ w', Image.save_jpeg im output_path quality exif w0 = (Ok tt, w')).
  { intros im exif w0 Hw0 Hmode Hsize Hex. unfold Image.save_jpeg. cbv zeta. cbn [fs log].
    rewrite Hw0, Hw. cbn [negb].
    rewrite (encoder_error_none im quality _ f); eauto. by rewrite Hmode. }
  cbn [loaded Image.info_exif Image.convert].
  destruct (f_exif f) as [|b bs] eqn:He.
  - match goal with |- context [Image.save_jpeg ?im _ _ ?ex ?w0] =>
      destruct (Hsave im ex w0) as [w' Hw']; [reflexivity..|rewrite Hw'; eauto]
    end.
  - match goal with |- context [Image.save_jpeg ?im _ _ ?ex ?w0] =>
      destruct (Hsave im ex w0) as [w' Hw']; [reflexivity..|rewrite Hw'; eauto]
    end.
Qed.

(** C5. When the image compositor succeeds, the file at the output path
    is a JPEG in the opaque three-channel mode with exactly the width and
    height of the base picture; its pixels are the base, converted to that
    mode, with the overlay pasted through its own alpha, and an overlay of
    another size went through the resampling filter at the size of the
    base first. *)
Theorem C5_output_has_base_size_and_no_alpha
    base_path overlay_path output_path quality w w' f :
  fs w !! base_path = Some (EFile (Picture f)) →
  combine_image (Some base_path) overlay_path output_path quality w = (Ok true, w') →
  ∃ o g,
    fs w !! overlay_path = Some (EFile (Picture o)) ∧
    fs w' !! output_path = Some (EFile (Picture g)) ∧
    f_size g = f_size f ∧
    f_format g = JPEG ∧
    f_mode g = ModeRGB ∧
    let overlay := PxConvert ModeRGBA (f_pixels o) in
    let fitted := if bool_decide (f_size o ≠ f_size f)
                  then PxLanczos (f_size f) overlay else overlay in
    f_pixels g = PxJpeg quality (PxPaste (PxConvert ModeRGB (f_pixels f)) fitted fitted).
Proof.
  intros Hb H.
  apply combine_image_success in H as (bp & f' & o & [= <-] & Hb' & Ho & Hfs).
  rewrite Hb in Hb'. injection Hb' as <-.
  exists o, (composite f o quality). rewrite Hfs, fs_put_lookup.
  by repeat split.
Qed.

Lemma fs_isdir_insert_file m p c c' q :
  m !! p = Some (EFile c) → fs_isdir (<[p := EFile c']> m) q = fs_isdir m q.
Proof.
  intros Hp. unfold fs_isdir. destruct (decide (p = q)) as [<-|Hne].
  - by rewrite lookup_insert_eq, Hp.
  - by rewrite lookup_insert_ne.
Qed.

Lemma fs_writable_insert_file m p c c' q :
  m !! p = Some (EFile c) → fs_writable (<[p := EFile c']> m) q = fs_writable m q.
Proof.
  intros Hp. unfold fs_writable. by rewrite !(fs_isdir_insert_file m p c c' _ Hp).
Qed.

(** C9. A successful call writes a file whose EXIF payload is, byte for
    byte, the payload of the base picture.  And a base without EXIF is no
    obstacle: the call does not fail for the want of it.  Whenever the call
    succeeds where the base carries some EXIF payload, it succeeds as well
    where the base is the same picture without EXIF, everything else being
    the same, and the output then has no EXIF either. *)
Theorem C9_exif_is_copied base_path overlay_path output_path quality w f :
  fs w !! base_path = Some (EFile (Picture f)) →
  (∀ w', combine_image (Some base_path) overlay_path output_path quality w = (Ok true, w') →
         ∃ g, fs w' !! output_path = Some (EFile (Picture g)) ∧ f_exif g = f_exif f) ∧
  (f_exif f = [] →
   ∀ exif w',
     combine_image (Some base_path) overlay_path output_path quality
       (set_fs (<[base_path := EFile (Picture (with_exif exif f))]> (fs w)) w) = (Ok true, w') →
     ∃ w'' g,
       combine_image (Some base_path) overlay_path output_path quality w = (Ok true, w'') ∧
       fs w'' !! output_path = Some (EFile (Picture g)) ∧ f_exif g = []).
Proof.
  intros Hb.
  assert (Hcopy : ∀ w',
    combine_image (Some base_path) overlay_path output_path quality w = (Ok true, w') →
    ∃ g, fs w' !! output_path = Some (EFile (Picture g)) ∧ f_exif g = f_exif f).
  { intros w' H.
    apply combine_image_success in H as (bp & f' & o & [= <-] & Hb' & Ho & Hfs).
    rewrite Hb in Hb'. injection Hb' as <-.
    exists (composite f o quality). by rewrite Hfs, fs_put_lookup. }
  split; [exact Hcopy|].
  intros Hnone exif w' Hrun'.
  destruct (combine_image_true _ _ _ _ _ _ Hrun')
    as (bp & f1 & o1 & [= <-] & Hb1 & Ho1 & Hof1 & Hoo1 & Hfit1 & Hq & Hw1 & _).
  cbn [fs set_fs] in Hb1, Ho1, Hw1.
  rewrite lookup_insert_eq in Hb1. injection Hb1 as <-.
  assert (Hof : opens f) by exact Hof1.
  assert (Hfit : fits_jpeg f).
  { destruct Hfit1 as (? & ? & _). split; [done|]. split; [done|].
    rewrite Hnone. by vm_compute. }
  assert (Hov : ∃ o, fs w !! overlay_path = Some (EFile (Picture o)) ∧ opens o).
  { destruct (decide (base_path = overlay_path)) as [<-|Hne]; [by exists f|].
    rewrite lookup_insert_ne in Ho1 by done. by exists o1. }
  destruct Hov as (o & Ho & Hoo).
  rewrite (fs_writable_insert_file _ _ _ _ _ Hb) in Hw1.
  destruct (combine_image_succeeds base_path overlay_path output_path quality w f o)
    as [w'' Hrun]; try done.
  destruct (Hcopy w'' Hrun) as (g & Hg & Hexif).
  exists w'', g. by rewrite Hexif, Hnone in *.
Qed.

(** ** The video compositor *)

Lemma combine_video_total base ov out : total (combine_video base ov out).
Proof.
  intros w.
  unfold combine_video, try_except, bind, note, subprocess.run_checked, print, ret, raise.
  simpl. repeat case_match; simplify_eq/=; eauto.
Qed.

(** ** The loop body *)

Lemma discovered_flags m directory info :
  discovered m directory info →
  (is_image info = true ↔ is_Some (base_image info)) ∧
  (is_video info = true ↔ is_Some (base_video info)).
Proof.
  intros [item files _ _ ->]. simpl.
  destruct (List.filter is_main_image files), (List.filter is_main_video files); simpl;
    repeat split; intros H; try done; try (by eexists); by destruct H.
Qed.

Lemma process_folder_image_execute output_dir quality has_ffmpeg total idx info c w ov rest :
  is_image info = true →
  overlays info = ov :: rest →
  process_folder output_dir false quality has_ffmpeg total idx info c w =
    let name := (folder_name info +:+ "_combined") +:+ ".jpg" in
    match combine_image (base_image info) ov (Path.join output_dir name) quality
            (log (EvPrint ("   Creating: " +:+ name))
               (log (EvPrint (progress_line total idx info)) w)) with
    | (Ok true, w2) =>
        (Ok (incr_processed_images c),
         log (EvPrint EmptyString) (log (EvPrint "   ✅ Saved!") w2))
    | (Ok false, w2) => (Ok (incr_errors c), log (EvPrint EmptyString) w2)
    | (Raise e, w2) => (Raise e, w2)
    end.
Proof.
  intros Hi Ho. unfold process_folder, bind, print, ret. rewrite Hi, Ho. simpl.
  destruct (combine_image _ _ _ _ _) as [[[|]|e] w2]; reflexivity.
Qed.

Lemma process_folder_video_execute output_dir quality total idx info c w ov rest :
  is_image info = false →
  is_video info = true →
  overlays info = ov :: rest →
  process_folder output_dir false quality true total idx info c w =
    let name := (folder_name info +:+ "_combined") +:+ ".mp4" in
    match combine_video (base_video info) ov (Path.join output_dir name)
            (log (EvPrint ("   Creating: " +:+ name))
               (log (EvPrint (progress_line total idx info)) w)) with
    | (Ok true, w2) =>
        (Ok (incr_processed_videos c),
         log (EvPrint EmptyString) (log (EvPrint "   ✅ Saved!") w2))
    | (Ok false, w2) => (Ok (incr_errors c), log (EvPrint EmptyString) w2)
    | (Raise e, w2) => (Raise e, w2)
    end.
Proof.
  intros Hi Hv Ho. unfold process_folder, bind, print, ret. rewrite Hi, Hv, Ho. simpl.
  destruct (combine_video _ _ _ _) as [[[|]|e] w2]; reflexivity.
Qed.

Lemma process_folder_skip output_dir dry_run quality total idx info c w :
  is_image info = false →
  is_video info = true →
  process_folder output_dir dry_run quality false total idx info c w =
    (Ok (incr_skipped_videos c),
     log (EvPrint EmptyString)
       (log (EvPrint "   ⏭️  Skipping video (ffmpeg not available)")
          (log (EvPrint (progress_line total idx info)) w))).
Proof.
  intros Hi Hv. unfold process_folder, bind, print, ret. rewrite Hi, Hv. reflexivity.
Qed.

Lemma process_folder_spec output_dir dry_run quality has_ffmpeg total idx info c w :
  overlays info ≠ [] →
  ∃ c' w',
    process_folder output_dir dry_run quality has_ffmpeg total idx info c w = (Ok c', w') ∧
    step_ok dry_run has_ffmpeg info c c'.
Proof.
  intros Hne. destruct (overlays info) as [|ov rest] eqn:Ho; [done|]. clear Hne.
  unfold step_ok.
  destruct (is_image info) eqn:Hi; [|destruct (is_video info) eqn:Hv].
  - destruct dry_run.
    + unfold process_folder, bind, print, ret. rewrite Hi. simpl. eauto.
    + erewrite process_folder_image_execute by done. simpl.
      match goal with |- context [combine_image ?a ?b ?o ?q ?w1] =>
        destruct (combine_image_total a b o q w1) as [b' Hb];
        destruct (combine_image a b o q w1) as [r w2] end.
      simpl in Hb. subst r. destruct b'; eauto.
  - destruct has_ffmpeg; simpl.
    + destruct dry_run.
      * unfold process_folder, bind, print, ret. rewrite Hi, Hv. simpl. eauto.
      * erewrite process_folder_video_execute by done. simpl.
        match goal with |- context [combine_video ?a ?b ?o ?w1] =>
          destruct (combine_video_total a b o w1) as [b' Hb];
          destruct (combine_video a b o w1) as [r w2] end.
        simpl in Hb. subst r. destruct b'; eauto.
    + rewrite process_folder_skip by done. eauto.
  - unfold process_folder, bind, print, ret. rewrite Hi, Hv. simpl. eauto.
Qed.

(** ** The loop *)

Lemma process_folders_spec output_dir dry_run quality has_ffmpeg total items : ∀ idx c w,
  Forall (λ info, overlays info ≠ []) items →
  ∃ c' w',
    process_folders output_dir dry_run quality has_ffmpeg total idx items c w = (Ok c', w') ∧
    steps_ok dry_run has_ffmpeg items c c'.
Proof.
  induction items as [|info rest IH]; intros idx c w Hwf; simpl.
  - by exists c, w.
  - apply Forall_cons in Hwf as [Hne Hrest].
    destruct (process_folder_spec output_dir dry_run quality has_ffmpeg total idx info c w Hne)
      as (c1 & w1 & Hrun & Hstep).
    unfold bind. rewrite Hrun.
    destruct (IH (S idx) c1 w1 Hrest) as (c' & w' & Hrun' & Hsteps).
    exists c', w'. split; [done|]. by exists c1.
Qed.

Lemma steps_ok_tally has_ffmpeg items : ∀ c c',
  steps_ok false has_ffmpeg items c c' →
  tally c' = (tally c + length (List.filter has_base items))%nat.
Proof.
  induction items as [|info rest IH]; intros c c'; simpl.
  - intros ->. lia.
  - intros (c1 & Hstep & Hrest). apply IH in Hrest. rewrite Hrest. clear Hrest IH.
    unfold step_ok, has_base in *.
    destruct (is_image info), (is_video info), has_ffmpeg; simpl in *;
      repeat match goal with H : _ ∨ _ |- _ => destruct H end; subst c1;
      unfold tally; simpl; lia.
Qed.

Lemma steps_ok_skipped dry_run items : ∀ c c',
  steps_ok dry_run false items c c' →
  skipped_videos c' =
    (skipped_videos c + length (List.filter (λ i, negb (is_image i) && is_video i) items))%nat ∧
  processed_videos c' = processed_videos c.
Proof.
  induction items as [|info rest IH]; intros c c'; simpl.
  - intros ->. split; lia.
  - intros (c1 & Hstep & Hrest). apply IH in Hrest as [-> ->]. clear IH.
    unfold step_ok in *.
    destruct (is_image info), (is_video info), dry_run; simpl in *;
      repeat match goal with H : _ ∨ _ |- _ => destruct H end; subst c1;
      simpl; split; lia.
Qed.

Lemma emits_process_folders_no_video output_dir dry_run quality total items : ∀ idx c,
  emits (λ e, negb (is_video_event e))
    (process_folders output_dir dry_run quality false total idx items c).
Proof.
  induction items as [|info rest IH]; intros idx c; simpl; [apply emits_ret|].
  apply emits_bind; [|intros c1; apply IH].
  apply emits_process_folder_no_video. by right.
Qed.

Lemma emits_process_folders_dry output_dir quality has_ffmpeg total items : ∀ idx c,
  emits is_print (process_folders output_dir true quality has_ffmpeg total idx items c).
Proof.
  induction items as [|info rest IH]; intros idx c; simpl; [apply emits_ret|].
  apply emits_bind; [|intros c1; apply IH].
  apply emits_process_folder_dry.
Qed.

Lemma discovered_kind m directory info :
  discovered m directory info →
  (is_image info = true ↔ kind_of info = Image_kind) ∧
  (is_image info = false ∧ is_video info = true ↔ kind_of info = Video_kind) ∧
  (is_image info = false ∧ is_video info = false ↔ kind_of info = Unclassified).
Proof.
  intros [item files _ _ ->]. unfold kind_of. simpl.
  destruct (List.filter is_main_image files), (List.filter is_main_video files); simpl;
    repeat split; try done; intros []; done.
Qed.

Lemma find_overlay_folders_discovered directory w items w' info :
  find_overlay_folders directory w = (Ok items, w') →
  info ∈ items → discovered (fs w) directory info.
Proof.
  intros H Hin. apply find_overlay_folders_spec in H as [_ Hl].
  specialize (Hl items eq_refl). rewrite Forall_forall in Hl. auto.
Qed.

(** C2. For a discovered folder the branch the loop takes is the derived
    kind, which depends on nothing but which base files are present; a
    folder with both a base image and a base video has kind Image and goes
    through the image branch: a dry run announces the [.jpg], an executing
    run calls the image compositor on the base image and counts its
    verdict, and no event of the video compositor occurs. *)
Theorem C2_image_takes_precedence directory w0 items w1 info :
  find_overlay_folders directory w0 = (Ok items, w1) →
  info ∈ items →
  ((is_image info = true ↔ kind_of info = Image_kind) ∧
   (is_image info = false ∧ is_video info = true ↔ kind_of info = Video_kind) ∧
   (is_image info = false ∧ is_video info = false ↔ kind_of info = Unclassified)) ∧
  (is_Some (base_image info) → is_Some (base_video info) →
   kind_of info = Image_kind ∧
   ∀ output_dir quality has_ffmpeg total idx c w,
     let name := (folder_name info +:+ "_combined") +:+ ".jpg" in
     let header := EvPrint (progress_line total idx info) in
     process_folder output_dir true quality has_ffmpeg total idx info c w =
       (Ok c, log (EvPrint EmptyString) (log (EvPrint ("   Would create: " +:+ name)) (log header w))) ∧
     ∃ ov b w2 w3,
       head (overlays info) = Some ov ∧
       combine_image (base_image info) ov (Path.join output_dir name) quality
         (log (EvPrint ("   Creating: " +:+ name)) (log header w)) = (Ok b, w2) ∧
       process_folder output_dir false quality has_ffmpeg total idx info c w =
         (Ok (if b then incr_processed_images c else incr_errors c), w3) ∧
       extends (λ e, negb (is_video_event e)) w w3).
Proof.
  intros Hfind Hin.
  pose proof (find_overlay_folders_discovered _ _ _ _ _ Hfind Hin) as Hd.
  split; [by apply (discovered_kind (fs w0) directory)|].
  intros [bi Hbi] [bv Hbv].
  assert (Hk : kind_of info = Image_kind) by (unfold kind_of; by rewrite Hbi).
  split; [done|].
  assert (Hi : is_image info = true) by (by apply (discovered_kind (fs w0) directory)).
  intros output_dir quality has_ffmpeg total idx c w name header. split.
  - unfold process_folder, bind, print, ret. by rewrite Hi.
  - pose proof (discovered_overlays _ _ _ Hd) as Hne.
    destruct (overlays info) as [|ov rest] eqn:Ho; [done|].
    pose proof (emits_process_folder_no_video output_dir false quality has_ffmpeg total idx
                  info c (or_introl Hi) w) as Hext.
    rewrite (process_folder_image_execute _ _ _ _ _ _ _ _ ov rest Hi Ho) in Hext |- *.
    fold name header in Hext |- *. cbv zeta in Hext |- *.
    match goal with |- context [combine_image ?a ?b ?o ?q ?w1] =>
      destruct (combine_image_total a b o q w1) as [b' Hb];
      destruct (combine_image a b o q w1) as [r w2] eqn:Hrun end.
    simpl in Hb. subst r.
    exists ov, b', w2. destruct b'; simpl in *; eauto.
Qed.

(** C6. Both compositors always return a boolean, whatever they are given
    and whatever the world is like; the loop over folders that have an
    overlay always runs to its end, and in an executing run every folder
    with a base ends up in exactly one counter; when a compositor answers
    [False] the loop adds one to [errors] and goes on with the next folder. *)
Theorem C6_failures_are_counted_not_raised :
  (∀ base ov out q w, ∃ b w', combine_image base ov out q w = (Ok b, w')) ∧
  (∀ base ov out w, ∃ b w', combine_video base ov out w = (Ok b, w')) ∧
  (∀ output_dir dry_run quality has_ffmpeg total idx items c w,
     Forall (λ info, overlays info ≠ []) items →
     ∃ c' w',
       process_folders output_dir dry_run quality has_ffmpeg total idx items c w = (Ok c', w') ∧
       (dry_run = false → tally c' = (tally c + length (List.filter has_base items))%nat)) ∧
  (∀ output_dir quality has_ffmpeg total idx info more c w ov rest w2,
     is_image info = true →
     overlays info = ov :: rest →
     combine_image (base_image info) ov
       (Path.join output_dir ((folder_name info +:+ "_combined") +:+ ".jpg")) quality
       (log (EvPrint ("   Creating: " +:+ (folder_name info +:+ "_combined") +:+ ".jpg"))
          (log (EvPrint (progress_line total idx info)) w)) = (Ok false, w2) →
     process_folders output_dir false quality has_ffmpeg total idx (info :: more) c w =
     process_folders output_dir false quality has_ffmpeg total (S idx) more (incr_errors c)
       (log (EvPrint EmptyString) w2)) ∧
  (∀ output_dir quality total idx info more c w ov rest w2,
     is_image info = false →
     is_video info = true →
     overlays info = ov :: rest →
     combine_video (base_video info) ov
       (Path.join output_dir ((folder_name info +:+ "_combined") +:+ ".mp4"))
       (log (EvPrint ("   Creating: " +:+ (folder_name info +:+ "_combined") +:+ ".mp4"))
          (log (EvPrint (progress_line total idx info)) w)) = (Ok false, w2) →
     process_folders output_dir false quality true total idx (info :: more) c w =
     process_folders output_dir false quality true total (S idx) more (incr_errors c)
       (log (EvPrint EmptyString) w2)).
Proof.
  repeat split.
  - intros base ov out q w. destruct (combine_image_total base ov out q w) as [b Hb].
    destruct (combine_image base ov out q w) as [r w']. simpl in Hb. subst r. eauto.
  - intros base ov out w. destruct (combine_video_total base ov out w) as [b Hb].
    destruct (combine_video base ov out w) as [r w']. simpl in Hb. subst r. eauto.
  - intros output_dir dry_run quality has_ffmpeg total idx items c w Hwf.
    destruct (process_folders_spec output_dir dry_run quality has_ffmpeg total items idx c w Hwf)
      as (c' & w' & Hrun & Hsteps).
    exists c', w'. split; [done|]. intros ->. by eapply steps_ok_tally.
  - intros output_dir quality has_ffmpeg total idx info more c w ov rest w2 Hi Ho Hfail.
    simpl. unfold bind at 1.
    rewrite (process_folder_image_execute _ _ _ _ _ _ _ _ ov rest Hi Ho).
    cbv zeta. by rewrite Hfail.
  - intros output_dir quality total idx info more c w ov rest w2 Hi Hv Ho Hfail.
    simpl. unfold bind at 1.
    rewrite (process_folder_video_execute _ _ _ _ _ _ _ ov rest Hi Hv Ho).
    cbv zeta. by rewrite Hfail.
Qed.

Lemma discovered_video_kind m directory info :
  discovered m directory info →
  is_video_kind info = negb (is_image info) && is_video info.
Proof.
  intros [item files _ _ ->]. unfold is_video_kind, kind_of. simpl.
  by destruct (List.filter is_main_image files), (List.filter is_main_video files).
Qed.

(** C8. With the video tool reported missing, a discovered folder that
    has a base video and no base image adds exactly one to the skipped
    counter and nothing else happens for it but three printed lines, in a
    dry run and in an executing run alike; over all discovered folders the
    skipped counter grows by the number of such folders, no video is
    counted as processed and the video compositor is never entered. *)
Theorem C8_videos_are_skipped_without_the_tool
    directory w0 items w1 output_dir dry_run quality total :
  find_overlay_folders directory w0 = (Ok items, w1) →
  (∀ info idx c w,
     info ∈ items → base_image info = None → is_Some (base_video info) →
     ∃ w', process_folder output_dir dry_run quality false total idx info c w =
             (Ok (incr_skipped_videos c), w') ∧
           fs w' = fs w ∧
           trace w' = trace w ++
             [EvPrint (progress_line total idx info);
              EvPrint "   ⏭️  Skipping video (ffmpeg not available)";
              EvPrint EmptyString]) ∧
  (∀ idx c w,
     ∃ c' w', process_folders output_dir dry_run quality false total idx items c w = (Ok c', w') ∧
              skipped_videos c' =
                (skipped_videos c + length (List.filter is_video_kind items))%nat ∧
              processed_videos c' = processed_videos c ∧
              extends (λ e, negb (is_video_event e)) w w').
Proof.
  intros Hfind.
  pose proof (find_overlay_folders_spec _ _ _ _ Hfind) as [_ Hall].
  specialize (Hall items eq_refl). split.
  - intros info idx c w Hin Hbi [bv Hbv].
    rewrite Forall_forall in Hall. specialize (Hall info Hin).
    assert (Hk : kind_of info = Video_kind) by (unfold kind_of; by rewrite Hbi, Hbv).
    apply (discovered_kind _ _ _ Hall) in Hk as [Hi Hv].
    rewrite process_folder_skip by done.
    eexists. split; [reflexivity|]. simpl. split; [done|].
    by rewrite <- !app_assoc.
  - intros idx c w.
    assert (Hwf : Forall (λ info, overlays info ≠ []) items).
    { eapply Forall_impl; [exact Hall|]. intros info. apply discovered_overlays. }
    destruct (process_folders_spec output_dir dry_run quality false total items idx c w Hwf)
      as (c' & w' & Hrun & Hsteps).
    exists c', w'. split; [done|].
    apply steps_ok_skipped in Hsteps as [Hs Hp].
    split; [|split; [done|]].
    + rewrite Hs. f_equal. f_equal.
      clear -Hall. induction Hall as [|info rest Hd _ IH]; [done|]. simpl.
      rewrite (discovered_video_kind _ _ _ Hd), IH. done.
    + pose proof (emits_process_folders_no_video output_dir dry_run quality total items idx c w)
        as Hext.
      by rewrite Hrun in Hext.
Qed.

(** ** The quality setting and what it can reach *)























Lemma fits_ssize_main q : 1 ≤ q ≤ 100 → fits_ssize q.
Proof. unfold fits_ssize, Image.SSIZE_MIN, Image.SSIZE_MAX. lia. Qed.






























(** *** The events of the video compositor, whatever the world does *)








(** ** Preview *)

(** A dry run of the whole pass looks at the file system and prints;
    it neither writes nor enters a compositor. *)
Lemma preview_only_reads_and_prints source_dir output_dir quality has_ffmpeg :
  emits is_read_or_print (process_all_memories source_dir output_dir true quality has_ffmpeg).
Proof.
  unfold process_all_memories.
  apply emits_bind; [apply emits_find_overlay_folders|]. intros folders.
  destruct (negb (truthy folders)); [emits_auto|].
  do 7 (apply emits_bind; [emits_auto|]; intros _).
  apply emits_bind.
  - eapply emits_weaken; [|apply emits_process_folders_dry]. by intros [].
  - intros c. unfold print_summary. emits_auto.
Qed.

Lemma preview_leaves_files_alone source_dir output_dir quality has_ffmpeg w :
  fs (process_all_memories source_dir output_dir true quality has_ffmpeg w).2 = fs w.
Proof.
  eapply extends_fs; [|apply preview_only_reads_and_prints]. by intros [].
Qed.

(** C1 (fails on the code). The claim wants a preview to announce, per
    kind, what an executing run attempts.  For a memory that has a base
    picture and a base video, with the video tool present, the preview
    announces one picture and one video, while the executing run enters
    the image compositor once and the video compositor never.  The preview
    itself leaves the files as they were. *)
Theorem C1_preview_announces_a_video_never_attempted :
  let preview := process_all_memories SOURCE_FOLDER OUTPUT_FOLDER true 95 true clash_world in
  let executed := process_all_memories SOURCE_FOLDER OUTPUT_FOLDER false 95 true clash_world in
  (∃ before after,
     printed (trace preview.2) =
       before ++ ["📊 Would create:"; "   📷 Images: 1"; "   🎥 Videos: 1"] ++ after) ∧
  fs preview.2 = fs clash_world ∧
  attempted_images (trace preview.2) = 0%nat ∧
  attempted_videos (trace preview.2) = 0%nat ∧
  attempted_images (trace executed.2) = 1%nat ∧
  attempted_videos (trace executed.2) = 0%nat.
Proof.
  split.
  - exists (take 14 (printed (trace (process_all_memories SOURCE_FOLDER OUTPUT_FOLDER true 95
                                     true clash_world).2))),
           (drop 17 (printed (trace (process_all_memories SOURCE_FOLDER OUTPUT_FOLDER true 95
                                     true clash_world).2))).
    vm_compute. reflexivity.
  - split; [apply preview_leaves_files_alone|].
    vm_compute. done.
Qed.

(** *** Where the preview is right

    An executing run enters the image compositor once for every folder
    flagged as a picture, and the video compositor once for every folder
    flagged as a video and not as a picture.  The preview announces the
    first number, and the number of all folders flagged as videos: the two
    reports agree exactly when no folder carries both flags. *)

Lemma extends_no_entry w w' :
  extends is_no_entry w w' →
  attempted_images (trace w') = attempted_images (trace w) ∧
  attempted_videos (trace w') = attempted_videos (trace w).
Proof.
  intros (_ & evs & -> & HP & _). unfold attempted_images, attempted_videos.
  rewrite !List.filter_app, !length_app.
  induction evs as [|e evs IH]; simpl in *; [lia|].
  apply andb_true_iff in HP as [He Hevs]. specialize (IH Hevs).
  unfold is_no_entry in He. apply andb_true_iff in He as [Hi Hv].
  apply negb_true_iff in Hi, Hv. rewrite Hi, Hv. lia.
Qed.

Lemma combine_image_enters_once base ov out q w :
  attempted_images (trace (combine_image base ov out q w).2) = S (attempted_images (trace w)) ∧
  attempted_videos (trace (combine_image base ov out q w).2) = attempted_videos (trace w).
Proof.
  unfold combine_image. rewrite bind_note.
  match goal with |- context [try_except ?b ?h] =>
    assert (Hbody : emits is_no_entry (try_except b h)) by emits_auto end.
  destruct (extends_no_entry _ _ (Hbody (log (EvCombineImage base ov out q) w))) as [-> ->].
  unfold attempted_images, attempted_videos. simpl.
  rewrite !List.filter_app, !length_app. simpl. lia.
Qed.

Lemma combine_video_enters_once base ov out w :
  attempted_images (trace (combine_video base ov out w).2) = attempted_images (trace w) ∧
  attempted_videos (trace (combine_video base ov out w).2) = S (attempted_videos (trace w)).
Proof.
  unfold combine_video. rewrite bind_note.
  match goal with |- context [try_except ?b ?h] =>
    assert (Hbody : emits is_no_entry (try_except b h)) by emits_auto end.
  destruct (extends_no_entry _ _ (Hbody (log (EvCombineVideo base ov out) w))) as [-> ->].
  unfold attempted_images, attempted_videos. simpl.
  rewrite !List.filter_app, !length_app. simpl. lia.
Qed.

Lemma process_folder_attempts output_dir quality has_ffmpeg total idx info c w :
  overlays info ≠ [] →
  let w' := (process_folder output_dir false quality has_ffmpeg total idx info c w).2 in
  attempted_images (trace w') =
    (attempted_images (trace w) + if is_image info then 1 else 0)%nat ∧
  attempted_videos (trace w') =
    (attempted_videos (trace w) + if has_ffmpeg && goes_to_video info then 1 else 0)%nat.
Proof.
  intros Hne. destruct (overlays info) as [|ov rest] eqn:Ho; [done|]. clear Hne.
  unfold goes_to_video.
  destruct (is_image info) eqn:Hi; [|destruct (is_video info) eqn:Hv;
    [destruct has_ffmpeg|]]; simpl.
  - erewrite process_folder_image_execute by done. cbv zeta.
    match goal with |- context [combine_image ?a ?b ?o ?q ?w1] =>
      pose proof (combine_image_enters_once a b o q w1) as [Hn Hm];
      destruct (combine_image_total a b o q w1) as [b' Hb];
      destruct (combine_image a b o q w1) as [r w2] end.
    simpl in *. subst r.
    destruct b'; simpl; unfold attempted_images, attempted_videos in *;
      rewrite ?List.filter_app, ?length_app in *; simpl in *;
      rewrite ?List.filter_app, ?length_app in *; simpl in *; rewrite andb_false_r; lia.
  - erewrite process_folder_video_execute by done. cbv zeta.
    match goal with |- context [combine_video ?a ?b ?o ?w1] =>
      pose proof (combine_video_enters_once a b o w1) as [Hn Hm];
      destruct (combine_video_total a b o w1) as [b' Hb];
      destruct (combine_video a b o w1) as [r w2] end.
    simpl in *. subst r.
    destruct b'; simpl; unfold attempted_images, attempted_videos in *;
      rewrite ?List.filter_app, ?length_app in *; simpl in *;
      rewrite ?List.filter_app, ?length_app in *; simpl in *; lia.
  - rewrite process_folder_skip by done. simpl.
    unfold attempted_images, attempted_videos.
    rewrite !List.filter_app, !length_app. simpl. lia.
  - unfold process_folder, bind, print, ret. rewrite Hi, Hv. simpl.
    unfold attempted_images, attempted_videos.
    rewrite !List.filter_app, !length_app. simpl. rewrite andb_false_r. lia.
Qed.

Lemma process_folders_attempts output_dir quality has_ffmpeg total items : ∀ idx c w,
  Forall (λ info, overlays info ≠ []) items →
  let w' := (process_folders output_dir false quality has_ffmpeg total idx items c w).2 in
  attempted_images (trace w') =
    (attempted_images (trace w) + length (List.filter is_image items))%nat ∧
  attempted_videos (trace w') =
    (attempted_videos (trace w) +
     if has_ffmpeg then length (List.filter goes_to_video items) else 0)%nat.
Proof.
  induction items as [|info rest IH]; intros idx c w Hwf; simpl.
  - destruct has_ffmpeg; lia.
  - apply Forall_cons in Hwf as [Hne Hrest].
    destruct (process_folder_spec output_dir false quality has_ffmpeg total idx info c w Hne)
      as (c1 & w1 & Hrun & _).
    pose proof (process_folder_attempts output_dir quality has_ffmpeg total idx info c w Hne)
      as [Hi Hv].
    unfold bind. rewrite Hrun in *. simpl in Hi, Hv.
    destruct (IH (S idx) c1 w1 Hrest) as [Hi' Hv']. rewrite Hi', Hv', Hi, Hv.
    destruct (is_image info), has_ffmpeg, (goes_to_video info); simpl; lia.
Qed.

(** The numbers under "Would create:" are the attempts of an executing
    run over the same folders, provided no folder is flagged both as a
    picture and as a video. *)
Lemma preview_agrees_unless_a_folder_has_both
    output_dir quality has_ffmpeg total idx items c w :
  Forall (λ info, overlays info ≠ []) items →
  Forall (λ info, is_image info && is_video info = false) items →
  let w' := (process_folders output_dir false quality has_ffmpeg total idx items c w).2 in
  (attempted_images (trace w') - attempted_images (trace w))%nat =
    length (List.filter is_image items) ∧
  (attempted_videos (trace w') - attempted_videos (trace w))%nat =
    (if has_ffmpeg then length (List.filter is_video items) else 0)%nat.
Proof.
  intros Hwf Hone w'.
  destruct (process_folders_attempts output_dir quality has_ffmpeg total items idx c w Hwf)
    as [Hi Hv].
  fold w' in Hi, Hv. rewrite Hi, Hv. split; [lia|].
  assert (Hsame : List.filter goes_to_video items = List.filter is_video items).
  { clear -Hone. induction Hone as [|info rest Hinfo _ IH]; [done|]. simpl.
    unfold goes_to_video at 1. rewrite IH.
    by destruct (is_image info), (is_video info). }
  rewrite Hsame. destruct has_ffmpeg; lia.
Qed.

(** ** The properties at work in the two small worlds *)


Lemma demo_found_eq :
  find_overlay_folders SOURCE_FOLDER demo_world = (Ok demo_found, demo_scanned).
Proof. vm_compute. reflexivity. Defined.

Lemma C2_witness :
  kind_of demo_both = Image_kind ∧
  ∃ w3, (process_folder OUTPUT_FOLDER false 95 true 5 4 demo_both zero_counters demo_scanned).2 = w3 ∧
        extends (λ e, negb (is_video_event e)) demo_scanned w3.
Proof.
  destruct (C2_image_takes_precedence SOURCE_FOLDER demo_world demo_found demo_scanned demo_both)
    as [_ H].
  - exact demo_found_eq.
  - vm_compute. repeat constructor.
  - destruct H as [Hk Hrun]; [by eexists|by eexists|].
    split; [exact Hk|].
    destruct (Hrun OUTPUT_FOLDER 95 true 5%nat 4%nat zero_counters demo_scanned)
      as (_ & ov & b & w2 & w3 & _ & _ & Heq & Hext).
    exists w3. split; [by rewrite Heq|exact Hext].
Defined.

Lemma C3_witness :
  Forall (λ info, overlays info ≠ []) demo_found ∧
  ∀ info, info ∈ demo_found → folder_path info ≠ "snapchat_memories/plain".
Proof.
  destruct (C3_discover_keeps_only_overlay_folders SOURCE_FOLDER demo_world demo_found
              demo_scanned demo_found_eq) as [H1 H2].
  split; [exact H1|].
  apply (H2 "plain" ["f-main.jpg"]); reflexivity.
Defined.

Lemma C4_witness :
  find_overlay_folders "nowhere" demo_world =
    (Ok [], log (EvPrint "❌ Folder 'nowhere' does not exist!")
              (log (EvExists "nowhere") demo_world)).
Proof.
  apply (C4_missing_root_gives_empty_list "nowhere" demo_world).
  vm_compute. reflexivity.
Defined.

Lemma C5_witness :
  let base := "snapchat_memories/memory1/a-main.jpg" in
  let overlay := "snapchat_memories/memory1/a-overlay.png" in
  let out := "snapchat_memories_combined/memory1_combined.jpg" in
  ∃ o g,
    fs demo_world !! overlay = Some (EFile (Picture o)) ∧
    fs (combine_image (Some base) overlay out 95 demo_world).2 !! out = Some (EFile (Picture g)) ∧
    f_size g = (100, 100) ∧ f_format g = JPEG ∧ f_mode g = ModeRGB.
Proof.
  intros base overlay out.
  destruct (C5_output_has_base_size_and_no_alpha base overlay out 95 demo_world
              (combine_image (Some base) overlay out 95 demo_world).2
              {| f_format := JPEG; f_mode := ModeRGB; f_size := (100, 100);
                 f_exif := [Byte.x45; Byte.x78; Byte.x69; Byte.x66];
                 f_pixels := PxSource 1 |})
    as (o & g & Ho & Hg & Hsize & Hfmt & Hmode & _).
  - vm_compute. reflexivity.
  - vm_compute. reflexivity.
  - exists o, g. repeat split; assumption.
Defined.

Lemma C6_witness :
  ∃ c' w',
    process_folders OUTPUT_FOLDER false 95 true 5 1 demo_found zero_counters demo_scanned =
      (Ok c', w') ∧
    (false = false → tally c' = (tally zero_counters + length (List.filter has_base demo_found))%nat).
Proof.
  apply (proj1 (proj2 (proj2 C6_failures_are_counted_not_raised))).
  vm_compute. repeat constructor; discriminate.
Defined.

Lemma C7_witness :
  main {| execute := true; quality := 150; skip_prompt := true |} demo_world =
    (Raise (SystemExit 1), log (EvPrint "❌ Quality must be between 1 and 100") demo_world).
Proof.
  apply (C7_quality_out_of_range_exits_first
           {| execute := true; quality := 150; skip_prompt := true |} demo_world).
  simpl. lia.
Defined.

Lemma C8_witness :
  ∃ w', process_folder OUTPUT_FOLDER false 95 false 5 3 demo_video zero_counters demo_scanned =
          (Ok (incr_skipped_videos zero_counters), w') ∧
        fs w' = fs demo_scanned.
Proof.
  destruct (C8_videos_are_skipped_without_the_tool SOURCE_FOLDER demo_world demo_found
              demo_scanned OUTPUT_FOLDER false 95 5%nat demo_found_eq) as [Hstep _].
  destruct (Hstep demo_video 3%nat zero_counters demo_scanned) as (w' & Hrun & Hfs & _).
  - vm_compute. repeat constructor.
  - reflexivity.
  - by eexists.
  - exists w'. split; assumption.
Defined.

Lemma C9_witness :
  let base := "snapchat_memories/memory1/a-main.jpg" in
  let overlay := "snapchat_memories/memory1/a-overlay.png" in
  let out := "snapchat_memories_combined/memory1_combined.jpg" in
  let bare := "snapchat_memories/both/d-MAIN.JPG" in
  let bare_overlay := "snapchat_memories/both/d-overlay.png" in
  let bare_out := "snapchat_memories_combined/both_combined.jpg" in
  (∃ g, fs (combine_image (Some base) overlay out 95 demo_world).2 !! out =
          Some (EFile (Picture g)) ∧
        f_exif g = [Byte.x45; Byte.x78; Byte.x69; Byte.x66]) ∧
  (∃ w' g, combine_image (Some bare) bare_overlay bare_out 95 demo_world = (Ok true, w') ∧
           fs w' !! bare_out = Some (EFile (Picture g)) ∧ f_exif g = []).
Proof.
  intros base overlay out bare bare_overlay bare_out. split.
  - destruct (C9_exif_is_copied base overlay out 95 demo_world
                {| f_format := JPEG; f_mode := ModeRGB; f_size := (100, 100);
                   f_exif := [Byte.x45; Byte.x78; Byte.x69; Byte.x66];
                   f_pixels := PxSource 1 |}) as [Hcopy _].
    + vm_compute. reflexivity.
    + apply (Hcopy (combine_image (Some base) overlay out 95 demo_world).2).
      vm_compute. reflexivity.
  - destruct (C9_exif_is_copied bare bare_overlay bare_out 95 demo_world
                {| f_format := JPEG; f_mode := ModeRGB; f_size := (64, 48);
                   f_exif := []; f_pixels := PxSource 5 |}) as [_ Hbare].
    + vm_compute. reflexivity.
    + eapply (Hbare eq_refl [Byte.x45; Byte.x78; Byte.x69; Byte.x66]).
      vm_compute. reflexivity.
Defined.


(** * Further properties of the script *)

(** ** Discovery *)

Lemma expected_folders_cons m directory item rest :
  expected_folders m directory (item :: rest) =
    (if has_overlay m directory item
     then [make_folder_info item (Path.join directory item)
             (listing m (Path.join directory item))]
     else []) ++ expected_folders m directory rest.
Proof. unfold expected_folders. simpl. by destruct (has_overlay m directory item). Qed.

Lemma scan_items_expected directory items : ∀ acc w,
  ∃ w', scan_items directory items acc w =
          (Ok (acc ++ expected_folders (fs w) directory items), w') ∧
        fs w' = fs w.
Proof.
  induction items as [|item rest IH]; intros acc w.
  - exists w. simpl. by rewrite app_nil_r.
  - rewrite expected_folders_cons. unfold has_overlay, listing. simpl.
    unfold bind, os.path_isdir, os.listdir. simpl.
    destruct (fs_isdir (fs w) (Path.join directory item)) eqn:Hd; simpl.
    + apply fs_isdir_true in Hd as [files Hf]. rewrite Hf.
      destruct (truthy (List.filter is_overlay_file files)) eqn:Ht.
      * destruct (IH (acc ++ [make_folder_info item (Path.join directory item) files])
                    (log (EvListdir (Path.join directory item))
                       (log (EvIsdir (Path.join directory item)) w)))
          as (w' & Hrun & Hfs).
        exists w'. rewrite Hrun. simpl. by rewrite <- app_assoc.
      * destruct (IH acc (log (EvListdir (Path.join directory item))
                            (log (EvIsdir (Path.join directory item)) w)))
          as (w' & Hrun & Hfs).
        exists w'. by rewrite Hrun.
    + destruct (IH acc (log (EvIsdir (Path.join directory item)) w)) as (w' & Hrun & Hfs).
      exists w'. by rewrite Hrun.
Qed.

Lemma find_overlay_folders_expected directory names w :
  fs w !! directory = Some (EDir names) →
  ∃ w', find_overlay_folders directory w =
          (Ok (expected_folders (fs w) directory names), w') ∧
        fs w' = fs w.
Proof.
  intros Hroot.
  unfold find_overlay_folders, bind, os.path_exists, fs_exists, print, os.listdir. simpl.
  rewrite Hroot. simpl. rewrite Hroot.
  match goal with |- context [scan_items directory names [] ?w1] =>
    destruct (scan_items_expected directory names [] w1) as (w' & Hrun & Hfs) end.
  exists w'. by rewrite Hrun.
Qed.

Lemma find_overlay_folders_missing directory w :
  fs w !! directory = None →
  find_overlay_folders directory w =
    (Ok [], log (EvPrint ("❌ Folder '" +:+ directory +:+ "' does not exist!"))
              (log (EvExists directory) w)).
Proof.
  intros H. unfold find_overlay_folders, bind, os.path_exists, fs_exists.
  rewrite H. reflexivity.
Qed.

(** X1. When the root is a directory, discovery returns one folder for
    every entry of its listing that is itself a directory holding at least
    one overlay file: none is left out, none is added, and the folders come
    in the order of the listing, each built from the listing of its own
    directory. *)
Theorem X1_discovery_is_complete_and_ordered directory names w :
  fs w !! directory = Some (EDir names) →
  ∃ w', find_overlay_folders directory w =
          (Ok (expected_folders (fs w) directory names), w') ∧
        fs w' = fs w ∧
        List.map folder_name (expected_folders (fs w) directory names) =
          List.filter (has_overlay (fs w) directory) names.
Proof.
  intros Hroot.
  destruct (find_overlay_folders_expected directory names w Hroot) as (w' & Hrun & Hfs).
  exists w'. repeat split; [done|done|].
  unfold expected_folders. rewrite List.map_map. simpl. apply List.map_id.
Qed.

Lemma X1_witness :
  ∃ w', find_overlay_folders SOURCE_FOLDER demo_world =
          (Ok (expected_folders demo_fs SOURCE_FOLDER
                 ["memory1"; "memory2"; "memory3"; "both"; "broken"; "notes.txt"; "plain"]), w') ∧
        fs w' = demo_fs ∧
        List.map folder_name
          (expected_folders demo_fs SOURCE_FOLDER
             ["memory1"; "memory2"; "memory3"; "both"; "broken"; "notes.txt"; "plain"]) =
        List.filter (has_overlay demo_fs SOURCE_FOLDER)
          ["memory1"; "memory2"; "memory3"; "both"; "broken"; "notes.txt"; "plain"].
Proof.
  apply (X1_discovery_is_complete_and_ordered SOURCE_FOLDER
           ["memory1"; "memory2"; "memory3"; "both"; "broken"; "notes.txt"; "plain"] demo_world).
  vm_compute. reflexivity.
Defined.

(** X2. Discovery only looks: whatever the world, it leaves the file
    system as it was, and all it adds to the trace are existence tests,
    directory tests, listings and printed lines. *)
Theorem X2_discovery_only_reads directory w :
  fs (find_overlay_folders directory w).2 = fs w ∧
  spawn (find_overlay_folders directory w).2 = spawn w ∧
  ∃ evs, trace (find_overlay_folders directory w).2 = trace w ++ evs ∧
         forallb is_read_or_print evs = true.
Proof.
  pose proof (emits_find_overlay_folders directory w) as Hext.
  split; [|split].
  - eapply extends_fs; [|exact Hext]. by intros [].
  - by destruct Hext.
  - destruct Hext as (_ & evs & Ht & HP & _). by exists evs.
Qed.

(** X3. A root that exists but is not a directory is not caught by the
    existence test: the listing raises [NotADirectoryError], discovery lets
    it through, and so does the whole pass, which stops right there in
    either mode. *)
Theorem X3_root_that_is_a_file_raises source_dir output_dir dry_run quality has_ffmpeg w c :
  fs w !! source_dir = Some (EFile c) →
  process_all_memories source_dir output_dir dry_run quality has_ffmpeg w =
    (Raise (Exn NotADirectoryError ("[Errno 20] Not a directory: '" +:+ source_dir +:+ "'")),
     log (EvListdir source_dir)
       (log (EvPrint "🔍 Scanning for memories with overlays...")
          (log (EvExists source_dir) w))).
Proof.
  intros Hroot.
  unfold process_all_memories, find_overlay_folders, bind, os.path_exists, fs_exists, print,
    os.listdir.
  simpl. rewrite Hroot. simpl. rewrite Hroot. reflexivity.
Qed.

Lemma X3_witness :
  process_all_memories "snapchat_memories/notes.txt" OUTPUT_FOLDER false 95 true demo_world =
    (Raise (Exn NotADirectoryError "[Errno 20] Not a directory: 'snapchat_memories/notes.txt'"),
     log (EvListdir "snapchat_memories/notes.txt")
       (log (EvPrint "🔍 Scanning for memories with overlays...")
          (log (EvExists "snapchat_memories/notes.txt") demo_world))).
Proof.
  apply (X3_root_that_is_a_file_raises "snapchat_memories/notes.txt" OUTPUT_FOLDER false 95 true
           demo_world (Blob [])).
  vm_compute. reflexivity.
Defined.

(** ** File names *)

Lemma sapp_nil b : EmptyString +:+ b = b.
Proof. reflexivity. Qed.

Lemma sapp_cons c a b : String c a +:+ b = String c (a +:+ b).
Proof. reflexivity. Qed.

Ltac sapp := repeat (rewrite ?sapp_nil, ?sapp_cons in *; simpl in * ).

Lemma lower_app a b : Str.lower (a +:+ b) = Str.lower a +:+ Str.lower b.
Proof. induction a as [|c a IH]; sapp; [done|]. by rewrite IH. Qed.

Lemma lower_split s : ∀ a b,
  Str.lower s = a +:+ b → ∃ sa sb, s = sa +:+ sb ∧ Str.lower sa = a ∧ Str.lower sb = b.
Proof.
  induction s as [|c s IH]; intros a b H; simpl in H.
  - destruct a; sapp; [|discriminate]. subst b. by exists EmptyString, EmptyString.
  - destruct a as [|c' a]; sapp.
    + subst b. by exists EmptyString, (String c s).
    + injection H as Hc H. destruct (IH a b H) as (sa & sb & -> & Ha & Hb).
      exists (String c sa), sb. sapp. by rewrite Hc, Ha.
Qed.

Lemma prefix_spec n : ∀ h, String.prefix n h = true ↔ ∃ post, h = n +:+ post.
Proof.
  induction n as [|c n IH]; intros h.
  - destruct h; simpl; (split; [intros _; by eexists|done]).
  - destruct h as [|d h]; simpl.
    + split; [done|]. intros [post H]. sapp. discriminate.
    + destruct (ascii_dec c d) as [->|Hne].
      * rewrite IH. split; intros [post H]; exists post; sapp; [by rewrite H|by injection H].
      * split; [done|]. intros [post H]. sapp. injection H as ? ?. done.
Qed.

Lemma contains_nil n : Str.contains n EmptyString = String.prefix n EmptyString.
Proof. unfold Str.contains. apply orb_false_r. Qed.

Lemma contains_cons n c h :
  Str.contains n (String c h) = String.prefix n (String c h) || Str.contains n h.
Proof. reflexivity. Qed.

Lemma contains_spec n h :
  Str.contains n h = true ↔ ∃ pre post, h = pre +:+ n +:+ post.
Proof.
  induction h as [|c h IH].
  - rewrite contains_nil, prefix_spec. split.
    + intros [post H]. by exists EmptyString, post.
    + intros (pre & post & H). destruct pre; sapp; [by exists post|discriminate].
  - rewrite contains_cons, orb_true_iff, prefix_spec, IH. split.
    + intros [[post H]|(pre & post & H)].
      * by exists EmptyString, post.
      * exists (String c pre), post. sapp. by rewrite H.
    + intros (pre & post & H). destruct pre as [|d pre]; sapp.
      * left. by exists post.
      * right. injection H as _ H. by exists pre, post.
Qed.

Lemma contains_lower_spec pat f :
  Str.contains pat (Str.lower f) = true ↔
  ∃ pre mid post, f = pre +:+ mid +:+ post ∧ Str.lower mid = pat.
Proof.
  rewrite contains_spec. split.
  - intros (pre & post & H).
    apply lower_split in H as (fa & fb & -> & Ha & Hb).
    apply lower_split in Hb as (fm & fp & -> & Hm & Hp).
    by exists fa, fm, fp.
  - intros (pre & mid & post & -> & Hm).
    exists (Str.lower pre), (Str.lower post). by rewrite !lower_app, Hm.
Qed.

(** X4. A file counts as an overlay, a base picture or a base video
    exactly when its name contains, anywhere and in any mix of upper and
    lower case, [-overlay.png], [-main.jpg] or [-main.mp4]: the name need
    not end there and one name may fall under several of the three. *)
Theorem X4_files_are_told_by_a_caseless_substring f :
  (is_overlay_file f = true ↔
   ∃ pre mid post, f = pre +:+ mid +:+ post ∧ Str.lower mid = "-overlay.png") ∧
  (is_main_image f = true ↔
   ∃ pre mid post, f = pre +:+ mid +:+ post ∧ Str.lower mid = "-main.jpg") ∧
  (is_main_video f = true ↔
   ∃ pre mid post, f = pre +:+ mid +:+ post ∧ Str.lower mid = "-main.mp4").
Proof.
  unfold is_overlay_file, is_main_image, is_main_video.
  repeat split; try apply contains_lower_spec; by apply contains_lower_spec.
Qed.

(** ** The probe for ffmpeg *)

(** X5. The probe spawns exactly one process, [ffmpeg -version], and
    captures its output as bytes, which it never reads.  When the program
    ran, the answer is [True] exactly when it exited with status 0,
    whatever it printed; when the program is not found the answer is
    [False].  When the program is found but cannot be started, for want of
    the permission to execute it or because it is no executable, the error
    is none of the two the probe catches: the probe raises it. *)
Theorem X5_probe_answers_by_exit_status w :
  let probed := log (EvSpawn [Some "ffmpeg"; Some "-version"]) w in
  check_ffmpeg_available w =
    match spawn w ["ffmpeg"; "-version"] (fs w) with
    | Exited rc err garbled m => (Ok (rc =? 0), set_fs m probed)
    | NotFound => (Ok false, probed)
    | NotPermitted =>
        (Raise (Exn PermissionError "[Errno 13] Permission denied: 'ffmpeg'"), probed)
    | NotExecutable =>
        (Raise (Exn OSError "[Errno 8] Exec format error: 'ffmpeg'"), probed)
    end.
Proof.
  intros probed.
  unfold check_ffmpeg_available, try_except, bind, subprocess.run_checked, ret. simpl.
  destruct (spawn w ["ffmpeg"; "-version"] (fs w)) as [| | |rc err garbled m]; try done.
  by destruct (rc =? 0).
Qed.

(** ** The video compositor *)


(** ** The image compositor *)

(** X7. When the base is nothing [Image.open] takes (it is missing, a
    directory, no picture file, or a picture beyond the pixel limit), the
    image compositor answers [False] after one error line: the overlay is
    not even opened and nothing is saved.  When the base opens and the
    overlay does not, it answers [False] likewise, again without saving. *)
Theorem X7_undecodable_input_writes_nothing base ov out q w :
  ((∀ f, fs w !! base = Some (EFile (Picture f)) → ¬ opens f) →
   ∃ msg, combine_image (Some base) ov out q w =
            (Ok false,
             log (EvPrint ("      ❌ Error combining image: " +:+ msg))
               (log (EvImageOpen (Some base)) (log (EvCombineImage (Some base) ov out q) w)))) ∧
  (∀ f, fs w !! base = Some (EFile (Picture f)) →
        opens f →
        (∀ o, fs w !! ov = Some (EFile (Picture o)) → ¬ opens o) →
   ∃ msg, combine_image (Some base) ov out q w =
            (Ok false,
             log (EvPrint ("      ❌ Error combining image: " +:+ msg))
               (log (EvImageOpen (Some ov))
                  (log (EvImageOpen (Some base))
                     (log (EvCombineImage (Some base) ov out q) w))))).
Proof.
  split.
  - intros Hbad.
    unfold combine_image, try_except, bind, note, Image.open, print, ret. simpl.
    destruct (fs w !! base) as [[?|[f|?]]|] eqn:Hb; simpl; try by eexists.
    destruct (_ <? _) eqn:Hlim; simpl; [by eexists|].
    destruct (Hbad f eq_refl). by apply opens_spec.
  - intros f Hb Hf Hbad.
    unfold combine_image. rewrite bind_note. unfold try_except, bind.
    erewrite image_open_picture; [|exact Hb|exact Hf]. cbv zeta.
    unfold Image.open, print, ret. simpl.
    destruct (fs w !! ov) as [[?|[o|?]]|] eqn:Ho; simpl; try by eexists.
    destruct (_ <? _) eqn:Hlim; simpl; [by eexists|].
    destruct (Hbad o eq_refl). by apply opens_spec.
Qed.

Lemma fs_put_other m p e p' :
  p' ≠ p → p' ≠ Path.dirname p → fs_put m p e !! p' = m !! p'.
Proof.
  intros Hp Hd. unfold fs_put, fs_link. rewrite lookup_insert_ne by done.
  destruct (m !! Path.dirname p) as [[names|c]|]; try done.
  case_bool_decide; [done|]. by rewrite lookup_insert_ne.
Qed.








Lemma X7_witness :
  ∃ msg, combine_image (Some "snapchat_memories/broken/e-main.jpg")
           "snapchat_memories/broken/e-overlay.png"
           "snapchat_memories_combined/broken_combined.jpg" 95 demo_world =
           (Ok false,
            log (EvPrint ("      ❌ Error combining image: " +:+ msg))
              (log (EvImageOpen (Some "snapchat_memories/broken/e-main.jpg"))
                 (log (EvCombineImage (Some "snapchat_memories/broken/e-main.jpg")
                         "snapchat_memories/broken/e-overlay.png"
                         "snapchat_memories_combined/broken_combined.jpg" 95) demo_world))).
Proof.
  apply (proj1 (X7_undecodable_input_writes_nothing "snapchat_memories/broken/e-main.jpg"
                  "snapchat_memories/broken/e-overlay.png"
                  "snapchat_memories_combined/broken_combined.jpg" 95 demo_world)).
  intros f Hf. vm_compute in Hf. discriminate.
Defined.


(** ** Paths *)

Lemma prefix_sep_cons c s : String.prefix "/" (String c s) = Ascii.eqb c Path.sep.
Proof.
  change (String.prefix "/" (String c s))
    with (if ascii_dec "/" c then String.prefix EmptyString s else false).
  destruct (ascii_dec "/" c) as [<-|Hne].
  - by destruct s.
  - symmetry. apply Ascii.eqb_neq. unfold Path.sep. congruence.
Qed.

Lemma has_sep_cons c s : Path.has_sep (String c s) = Ascii.eqb c Path.sep || Path.has_sep s.
Proof. unfold Path.has_sep. by rewrite contains_cons, prefix_sep_cons. Qed.

Lemma cut_app p : p = (Path.cut p).1 +:+ (Path.cut p).2.
Proof.
  induction p as [|c s IH]; [done|]. simpl.
  destruct (Path.cut s) as [h t]. simpl in IH.
  destruct (Path.has_sep s); simpl; sapp; [by rewrite <- IH|].
  destruct (Ascii.eqb c Path.sep); simpl; sapp; done.
Qed.

Lemma cut_head_nonempty s : Path.has_sep s = true → (Path.cut s).1 ≠ EmptyString.
Proof.
  destruct s as [|c s]; [done|]. rewrite has_sep_cons. simpl.
  destruct (Path.cut s) as [h t].
  destruct (Path.has_sep s); simpl; [done|].
  rewrite orb_false_r. by intros ->.
Qed.

(** The head a path is cut into is empty, or what [rstrip] leaves of it
    followed by at least one separator. *)
Lemma cut_head_shape p :
  (Path.cut p).1 = EmptyString ∨
  ∃ k, (Path.cut p).1 =
         Path.rstrip (Path.cut p).1 +:+ Str.replicate (S k) Path.sep.
Proof.
  induction p as [|c s IH]; [by left|]. simpl.
  pose proof (cut_head_nonempty s) as Hne.
  destruct (Path.cut s) as [h t]. simpl in *.
  destruct (Path.has_sep s) eqn:Hs; simpl.
  - right. destruct IH as [->|[k Hk]]; [by destruct Hne|].
    destruct (Str.is_empty (Path.rstrip h) && Ascii.eqb c Path.sep) eqn:Hc.
    + apply andb_true_iff in Hc as [He Hc]. apply Ascii.eqb_eq in Hc as ->.
      destruct (Path.rstrip h); [|done]. sapp.
      exists (S k). rewrite Hk at 1. by sapp.
    + exists k. sapp. by rewrite <- Hk.
  - destruct (Ascii.eqb c Path.sep) eqn:Hc; simpl; [|by left].
    apply Ascii.eqb_eq in Hc as ->. right. exists 0%nat. by sapp.
Qed.

Lemma rstrip_empty s :
  Path.rstrip s = EmptyString → s = EmptyString ∨ String.prefix "/" s = true.
Proof.
  destruct s as [|c s]; [by left|]. simpl.
  destruct (Str.is_empty (Path.rstrip s) && Ascii.eqb c Path.sep) eqn:Hc; [|done].
  apply andb_true_iff in Hc as [_ Hc]. apply Ascii.eqb_eq in Hc as ->.
  intros _. right. by destruct s.
Qed.

(** The directory of a path is empty, or starts with a separator, or is
    followed in the path by a separator. *)
Lemma dirname_shape p :
  Path.dirname p = EmptyString ∨
  String.prefix "/" (Path.dirname p) = true ∨
  ∃ rest, p = Path.dirname p +:+ "/" +:+ rest.
Proof.
  unfold Path.dirname, Path.split.
  pose proof (cut_app p) as Happ. pose proof (cut_head_shape p) as Hshape.
  destruct (Path.cut p) as [h t]. simpl in *.
  destruct Hshape as [->|[k Hk]]; [by left|].
  destruct (Path.rstrip h) as [|c r] eqn:Hr; simpl.
  - apply rstrip_empty in Hr as [->|Hr]; [by left|by right; left].
  - right; right. exists (Str.replicate k Path.sep +:+ t).
    rewrite Happ, Hk at 1. sapp. f_equal.
    clear. induction r as [|d r IH]; sapp; [done|]. by rewrite IH.
Qed.

Lemma sapp_assoc a b c : (a +:+ b) +:+ c = a +:+ b +:+ c.
Proof. induction a as [|x a IH]; sapp; [done|]. by rewrite IH. Qed.

Lemma under_up_closed c r : c ≠ Path.sep → up_closed (under (String c r)).
Proof.
  intros Hc p H. unfold under in *. apply orb_true_iff in H.
  assert (Hd : Path.dirname p = String c r ∨
               ∃ x, Path.dirname p = String c ((r +:+ "/") +:+ x)).
  { destruct H as [H|H]; [left; by apply String.eqb_eq|right].
    apply prefix_spec in H as [x H]. exists x. by rewrite H, !sapp_cons. }
  clear H. apply orb_true_iff.
  destruct (dirname_shape p) as [He|[Hs|[rest Hp]]].
  - rewrite He in Hd. by destruct Hd as [Hd|[x Hd]].
  - apply prefix_spec in Hs as [post Hs]. rewrite sapp_cons, sapp_nil in Hs.
    rewrite Hs in Hd. destruct Hd as [[= <- _]|[x [= <- _]]]; by destruct Hc.
  - right. apply prefix_spec. destruct Hd as [Hd|[x Hd]].
    + exists rest. rewrite Hp at 1. by rewrite Hd, sapp_assoc.
    + exists (x +:+ "/" +:+ rest). rewrite Hp at 1. rewrite Hd.
      by rewrite !sapp_cons, !sapp_assoc.
Qed.

(** ** What a run may touch *)

Lemma spares_ret {A} P (a : A) : spares P (ret a).
Proof. by intros w _. Qed.

Lemma spares_raise {A} P e : spares P (raise (A:=A) e).
Proof. by intros w _. Qed.

Lemma spares_bind {A B} P (m : M A) (k : A → M B) :
  spares P m → (∀ a, spares P (k a)) → spares P (bind m k).
Proof.
  intros Hm Hk w Hw. unfold bind. destruct (Hm w Hw) as [Hs Hf].
  destruct (m w) as [[a|e] w1]; simpl in *; [|done].
  destruct (Hk a w1) as [Hs' Hf']; [by rewrite Hs|].
  split; [congruence|]. intros p Hp. by rewrite Hf', Hf.
Qed.

Lemma spares_try_except {A} P (m : M A) (h : exn → M A) :
  spares P m → (∀ e, spares P (h e)) → spares P (try_except m h).
Proof.
  intros Hm Hh w Hw. unfold try_except. destruct (Hm w Hw) as [Hs Hf].
  destruct (m w) as [[a|e] w1]; simpl in *; [done|].
  destruct (is_Exception e); [|done].
  destruct (Hh e w1) as [Hs' Hf']; [by rewrite Hs|].
  split; [congruence|]. intros p Hp. by rewrite Hf', Hf.
Qed.

(** What only reads and prints spares every path. *)
Lemma spares_of_reads {A} P (Q : event → bool) (m : M A) :
  (∀ e, Q e = true → is_write e = false) → emits Q m → spares P m.
Proof.
  intros HQ Hm w _. split; [by destruct (Hm w)|].
  intros p _. by rewrite (extends_fs Q w _ HQ (Hm w)).
Qed.

Lemma spares_print P line : spares P (print line).
Proof. by intros w _. Qed.

Lemma spares_note P e : spares P (note e).
Proof. by intros w _. Qed.

Lemma spares_when P b (m : M unit) : spares P m → spares P (when b m).
Proof. intros Hm. destruct b; [done|apply spares_ret]. Qed.

Lemma spares_input P prompt : spares P (input prompt).
Proof. intros w _. unfold input. simpl. by destruct (stdin w). Qed.

Lemma spares_index0 {A} P (l : list A) : spares P (index0 l).
Proof. destruct l; [apply spares_raise|apply spares_ret]. Qed.

Lemma spares_image_open P path : spares P (Image.open path).
Proof.
  apply (spares_of_reads P (λ e, negb (is_write e))); [by intros []|].
  by apply emits_image_open.
Qed.

Lemma spares_image_paste P dst im mask : spares P (Image.paste dst im mask).
Proof. unfold Image.paste. case_bool_decide; [apply spares_ret|apply spares_raise]. Qed.

Lemma up_closed_dirname P p : up_closed P → P p = false → P (Path.dirname p) = false.
Proof.
  intros Hup Hp. destruct (P (Path.dirname p)) eqn:Hd; [|done].
  apply Hup in Hd. congruence.
Qed.

Lemma not_in_P (P : string → bool) p q : P p = true → P q = false → p ≠ q.
Proof. congruence. Qed.

Lemma spares_save_jpeg P im path q exif :
  up_closed P → P path = false → spares P (Image.save_jpeg im path q exif).
Proof.
  intros Hup Hpath w _. unfold Image.save_jpeg. cbv zeta. cbn [fs log].
  assert (Hput : ∀ e p, P p = true → fs_put (fs w) path e !! p = fs w !! p).
  { intros e p Hp. apply fs_put_other.
    - by apply (not_in_P P).
    - apply (not_in_P P); [done|]. by apply up_closed_dirname. }
  destruct (negb _); [done|].
  destruct (Image.encoder_error _ _ _); [destruct (fs_exists _ _)|];
    (split; [done|]); try done; intros p Hp; by apply Hput.
Qed.

Lemma spares_run_checked P text cmd :
  up_closed P →
  (∀ args, subprocess.argv cmd = Some args → P (List.last args EmptyString) = false) →
  spares P (subprocess.run_checked text cmd).
Proof.
  intros Hup Hlast w Hw. unfold subprocess.run_checked. simpl.
  destruct (subprocess.argv cmd) as [args|]; [|done].
  specialize (Hlast args eq_refl).
  destruct (spawn w args (fs w)) as [| | |rc err garbled m'] eqn:Hsp; try done.
  assert (Hm : ∀ p, P p = true → m' !! p = fs w !! p).
  { intros p Hp. apply (Hw args (fs w) rc err garbled m' p Hsp).
    - by apply (not_in_P P).
    - apply (not_in_P P); [done|]. by apply up_closed_dirname. }
  destruct (if text then garbled else None); [done|].
  by destruct (rc =? 0).
Qed.

Lemma sapp_empty_r a : a +:+ EmptyString = a.
Proof. induction a as [|c a IH]; [done|]. by rewrite sapp_cons, IH. Qed.

(** A name is what is left of it without the slashes at its end, and
    those slashes. *)
Lemma rstrip_shape p : ∃ n, p = Path.rstrip p +:+ Str.replicate n Path.sep.
Proof.
  induction p as [|c s [n IH]]; [by exists 0%nat|]. simpl.
  destruct (Str.is_empty (Path.rstrip s) && Ascii.eqb c Path.sep) eqn:Hc.
  - apply andb_true_iff in Hc as [He Hc]. apply Ascii.eqb_eq in Hc as ->.
    destruct (Path.rstrip s); [|done]. exists (S n).
    rewrite sapp_nil in IH. rewrite sapp_nil.
    change (Str.replicate (S n) Path.sep) with (String Path.sep (Str.replicate n Path.sep)).
    by rewrite <- IH.
  - exists n. rewrite sapp_cons. by rewrite <- IH.
Qed.

Lemma under_rstrip root p : under root (Path.rstrip p) = true → under root p = true.
Proof.
  destruct (rstrip_shape p) as [n Hn]. unfold under. intros H.
  apply orb_true_iff in H. apply orb_true_iff. destruct H as [H|H].
  - apply String.eqb_eq in H. rewrite H in Hn. destruct n as [|n].
    + left. apply String.eqb_eq. rewrite Hn. apply sapp_empty_r.
    + right. apply prefix_spec. exists (Str.replicate n Path.sep). rewrite Hn.
      change (Str.replicate (S n) Path.sep) with ("/" +:+ Str.replicate n Path.sep).
      by rewrite sapp_assoc.
  - right. apply prefix_spec in H as [post H]. apply prefix_spec.
    exists (post +:+ Str.replicate n Path.sep). rewrite Hn, H. by rewrite sapp_assoc.
Qed.

Lemma not_under_rstrip root p : under root p = false → under root (Path.rstrip p) = false.
Proof.
  intros Hp. destruct (under root (Path.rstrip p)) eqn:Hr; [|done].
  apply under_rstrip in Hr. congruence.
Qed.

Lemma mkdir_exist_ok_spares P m name m' :
  up_closed P → P (Path.rstrip name) = false →
  os.mkdir_exist_ok m name = Ok m' → ∀ p, P p = true → m' !! p = m !! p.
Proof.
  intros Hup Hname H p Hp. unfold os.mkdir_exist_ok, os.mkdir_fs in H. cbv zeta in H.
  repeat case_match; simplify_eq; try done.
  apply fs_put_other.
  - by apply (not_in_P P).
  - apply (not_in_P P); [done|]. by apply up_closed_dirname.
Qed.

Lemma makedirs_fs_spares P :
  up_closed P → (∀ q, P q = false → P (Path.rstrip q) = false) → ∀ fuel name m m',
  P name = false →
  os.makedirs_fs fuel m name = Ok m' → ∀ p, P p = true → m' !! p = m !! p.
Proof.
  intros Hup Hstrip. induction fuel as [|fuel IH]; intros name m m' Hname H p Hp; simpl in H.
  all: pose proof (Hstrip name Hname) as Hname'.
  { by apply (mkdir_exist_ok_spares P m name m'). }
  pose proof (up_closed_dirname P name Hup Hname) as Hhead.
  unfold Path.dirname in Hhead.
  destruct (Path.split name) as [head tail]. simpl in Hhead.
  assert (Hhead' : ∀ h t, (if Str.is_empty tail then Path.split head else (head, tail)) = (h, t) →
                          P h = false).
  { intros h t Heq. destruct (Str.is_empty tail); [|by injection Heq as <- _].
    pose proof (up_closed_dirname P head Hup Hhead) as Hh.
    unfold Path.dirname in Hh. rewrite Heq in Hh. done. }
  destruct (if Str.is_empty tail then Path.split head else (head, tail)) as [h t].
  specialize (Hhead' h t eq_refl).
  destruct (negb (Str.is_empty h) && negb (Str.is_empty t) && negb (fs_exists m h));
    [|by apply (mkdir_exist_ok_spares P m name m')].
  destruct (os.makedirs_fs fuel m h) as [m1|e] eqn:Hrec.
  - specialize (IH h m m1 Hhead' Hrec p Hp).
    destruct (String.eqb t "."); [by injection H as <-|].
    rewrite <- IH. by apply (mkdir_exist_ok_spares P m1 name m').
  - destruct e as [[] msg| |]; try discriminate.
    destruct (String.eqb t "."); [by injection H as <-|].
    by apply (mkdir_exist_ok_spares P m name m').
Qed.

Lemma spares_makedirs P name :
  up_closed P → (∀ q, P q = false → P (Path.rstrip q) = false) → P name = false →
  spares P (os.makedirs name).
Proof.
  intros Hup Hstrip Hname w _. unfold os.makedirs. simpl.
  destruct (os.makedirs_fs (String.length name) (fs w) name) as [m'|e] eqn:Hmk; [|done].
  split; [done|]. intros p Hp. simpl.
  by apply (makedirs_fs_spares P Hup Hstrip (String.length name) name (fs w) m').
Qed.

Ltac spares_step :=
  first
    [ apply spares_ret
    | apply spares_raise
    | apply spares_print
    | apply spares_note
    | apply spares_input
    | apply spares_index0
    | apply spares_image_open
    | apply spares_image_paste
    | apply spares_when
    | apply spares_bind; [|intros ?]
    | apply spares_try_except; [|intros ?] ].

Lemma spares_combine_image P base ov out q :
  up_closed P → P out = false → spares P (combine_image base ov out q).
Proof.
  intros Hup Hout. unfold combine_image.
  repeat first [spares_step | by apply spares_save_jpeg | case_match].
Qed.

Lemma last_ffmpeg_cmd base ov out args :
  subprocess.argv (ffmpeg_cmd base ov out) = Some args → List.last args EmptyString = out.
Proof. destruct base; simpl; [by intros [= <-]|discriminate]. Qed.

Lemma spares_combine_video P base ov out :
  up_closed P → P out = false → spares P (combine_video base ov out).
Proof.
  intros Hup Hout. unfold combine_video.
  apply spares_bind; [apply spares_note|]. intros _.
  apply spares_try_except.
  - apply spares_bind; [|intros; apply spares_ret].
    apply spares_run_checked; [done|]. intros args Hargs.
    by rewrite (last_ffmpeg_cmd _ _ _ _ Hargs).
  - intros e. destruct e; repeat spares_step.
Qed.

Lemma spares_process_folder P output_dir dry_run quality has_ffmpeg total idx info c :
  up_closed P → (∀ name, P (Path.join output_dir name) = false) →
  spares P (process_folder output_dir dry_run quality has_ffmpeg total idx info c).
Proof.
  intros Hup Hout. unfold process_folder.
  apply spares_bind; [apply spares_print|]. intros _.
  apply spares_bind; [|intros; repeat spares_step].
  repeat first [ apply spares_combine_image; [done|apply Hout]
               | apply spares_combine_video; [done|apply Hout]
               | spares_step
               | case_match ].
Qed.

Lemma spares_process_folders P output_dir dry_run quality has_ffmpeg total items : ∀ idx c,
  up_closed P → (∀ name, P (Path.join output_dir name) = false) →
  spares P (process_folders output_dir dry_run quality has_ffmpeg total idx items c).
Proof.
  induction items as [|info rest IH]; intros idx c Hup Hout; simpl; [apply spares_ret|].
  apply spares_bind; [by apply spares_process_folder|]. intros c1. by apply IH.
Qed.

Lemma spares_process_all_memories P source_dir output_dir dry_run quality has_ffmpeg :
  up_closed P → (∀ q, P q = false → P (Path.rstrip q) = false) →
  P output_dir = false → (∀ name, P (Path.join output_dir name) = false) →
  spares P (process_all_memories source_dir output_dir dry_run quality has_ffmpeg).
Proof.
  intros Hup Hstrip Hdir Hout. unfold process_all_memories.
  apply spares_bind.
  { apply (spares_of_reads P is_read_or_print); [by intros []|].
    apply emits_find_overlay_folders. }
  intros folders. destruct (negb (truthy folders)); [apply spares_print|].
  do 6 (apply spares_bind; [repeat spares_step|]; intros _).
  apply spares_bind; [apply spares_when; by apply spares_makedirs|]. intros _.
  apply spares_bind; [by apply spares_process_folders|]. intros c.
  unfold print_summary. repeat first [spares_step | case_match].
Qed.

Lemma under_source_output : under SOURCE_FOLDER OUTPUT_FOLDER = false.
Proof. reflexivity. Qed.

Lemma under_source_outputs name : under SOURCE_FOLDER (Path.join OUTPUT_FOLDER name) = false.
Proof.
  unfold Path.join.
  destruct (String.prefix "/" name) eqn:Hn.
  - apply prefix_spec in Hn as [post ->]. reflexivity.
  - reflexivity.
Qed.

Lemma up_closed_under_source : up_closed (under SOURCE_FOLDER).
Proof. apply under_up_closed. discriminate. Qed.

(** X9. Provided the programs [main] spawns write nothing but the file
    named by their last argument (and the listing of its directory), a run
    of [main] leaves the source folder and every path below it exactly as
    it found them, whatever the arguments, the answers at the prompt, the
    contents of the folder and the outcome of each compositor. *)
Theorem X9_main_leaves_the_originals_alone a w p :
  writes_only_last_argument (spawn w) →
  under SOURCE_FOLDER p = true →
  fs (main a w).2 !! p = fs w !! p.
Proof.
  intros Hw Hp.
  assert (Hafter : ∀ dry_run q, spares (under SOURCE_FOLDER) (main_after_prompt dry_run q)).
  { intros dry_run q. unfold main_after_prompt.
    apply spares_bind.
    { unfold check_ffmpeg_available. apply spares_try_except.
      - apply spares_bind; [|intros; apply spares_ret].
        apply spares_run_checked; [apply up_closed_under_source|].
        by intros args [= <-].
      - intros e. repeat first [spares_step | case_match]. }
    intros ff.
    apply spares_bind; [repeat spares_step|]. intros _.
    apply spares_bind; [destruct dry_run; repeat spares_step|]. intros _.
    apply spares_process_all_memories.
    - apply up_closed_under_source.
    - apply not_under_rstrip.
    - apply under_source_output.
    - apply under_source_outputs. }
  assert (Hmain : spares (under SOURCE_FOLDER) (main a)).
  { unfold main.
    destruct (negb ((1 <=? quality a) && (quality a <=? 100))); [repeat spares_step|].
    do 4 (apply spares_bind; [apply spares_print|]; intros _).
    destruct (negb (skip_prompt a)); [|apply Hafter].
    do 8 (apply spares_bind; [apply spares_print|]; intros _).
    apply spares_bind; [apply spares_input|]. intros response.
    destruct (negb (bool_decide _)); [apply spares_print|].
    apply spares_bind; [apply spares_print|]. intros _. apply Hafter. }
  by apply (Hmain w Hw).
Qed.

Lemma demo_spawn_writes_only_last_argument : writes_only_last_argument demo_spawn.
Proof.
  intros cmd m rc err garbled m' p Hsp Hp Hd. unfold demo_spawn in Hsp.
  destruct cmd as [|a0 [|a1 [|base [|a3 [|a4 [|a5 [|a6 [|a7 [|a8 [|a9 [|out [|a11 rest]]]]]]]]]]]];
    try discriminate.
  - by case_match; simplify_eq.
  - simpl in Hp, Hd. repeat case_match; simplify_eq; try done.
    by apply fs_put_other.
Qed.

Lemma X9_witness :
  fs (main {| execute := true; quality := 90; skip_prompt := false |} demo_world).2
    !! "snapchat_memories/memory1/a-main.jpg" =
  fs demo_world !! "snapchat_memories/memory1/a-main.jpg".
Proof.
  apply (X9_main_leaves_the_originals_alone
           {| execute := true; quality := 90; skip_prompt := false |} demo_world
           "snapchat_memories/memory1/a-main.jpg").
  - exact demo_spawn_writes_only_last_argument.
  - reflexivity.
Defined.

(** ** The pass as a whole *)

(** X10. In preview mode the whole pass, in every world and for every
    choice of folders, quality and tool, leaves the file system as it was
    and adds nothing to the trace but existence tests, directory tests,
    listings and printed lines: no directory is made, no picture opened or
    saved, no process spawned, no compositor entered. *)
Theorem X10_preview_only_reads_and_prints source_dir output_dir quality has_ffmpeg w :
  let run := process_all_memories source_dir output_dir true quality has_ffmpeg w in
  fs run.2 = fs w ∧
  ∃ evs, trace run.2 = trace w ++ evs ∧ forallb is_read_or_print evs = true.
Proof.
  intros run.
  pose proof (preview_only_reads_and_prints source_dir output_dir quality has_ffmpeg w) as Hext.
  fold run in Hext. split.
  - eapply extends_fs; [|exact Hext]. by intros [].
  - destruct Hext as (_ & evs & Ht & HP & _). by exists evs.
Qed.

(** X11. When there is nothing to recombine the pass says so and stops,
    in preview and in execute mode alike, before the output directory is
    made: this is so when the source folder is missing, and when it is a
    directory none of whose entries is a directory with an overlay. *)
Theorem X11_nothing_found_makes_no_output_directory
    source_dir output_dir dry_run quality has_ffmpeg w :
  (fs w !! source_dir = None →
   process_all_memories source_dir output_dir dry_run quality has_ffmpeg w =
     (Ok tt,
      log (EvPrint "✅ No memories with overlays found!")
        (log (EvPrint ("❌ Folder '" +:+ source_dir +:+ "' does not exist!"))
           (log (EvExists source_dir) w)))) ∧
  (∀ names,
     fs w !! source_dir = Some (EDir names) →
     List.filter (has_overlay (fs w) source_dir) names = [] →
     ∃ w1, find_overlay_folders source_dir w = (Ok [], w1) ∧
           process_all_memories source_dir output_dir dry_run quality has_ffmpeg w =
             (Ok tt, log (EvPrint "✅ No memories with overlays found!") w1) ∧
           fs w1 = fs w ∧
           extends is_read_or_print w w1).
Proof.
  split.
  - intros Hroot. unfold process_all_memories, bind.
    by rewrite (find_overlay_folders_missing source_dir w Hroot).
  - intros names Hroot Hnone.
    destruct (find_overlay_folders_expected source_dir names w Hroot) as (w1 & Hfind & Hfs).
    unfold expected_folders in Hfind. rewrite Hnone in Hfind. simpl in Hfind.
    exists w1. split; [done|]. split; [|split; [done|]].
    + unfold process_all_memories, bind. by rewrite Hfind.
    + pose proof (emits_find_overlay_folders source_dir w) as Hext.
      by rewrite Hfind in Hext.
Qed.

Lemma X11_witness :
  process_all_memories "nowhere" OUTPUT_FOLDER false 95 true demo_world =
    (Ok tt,
     log (EvPrint "✅ No memories with overlays found!")
       (log (EvPrint "❌ Folder 'nowhere' does not exist!")
          (log (EvExists "nowhere") demo_world))).
Proof.
  apply (proj1 (X11_nothing_found_makes_no_output_directory "nowhere" OUTPUT_FOLDER false 95
                  true demo_world)).
  vm_compute. reflexivity.
Defined.

(** ** The loop body *)

(** X12. A discovered folder that has an overlay and neither a base
    picture nor a base video is passed over in both modes: its heading and
    an empty line are printed, no counter moves, so it is not counted as an
    error, and nothing is opened, spawned or written for it. *)
Theorem X12_folder_without_base_is_passed_over
    directory w0 items w1 info output_dir dry_run quality has_ffmpeg total idx c w :
  find_overlay_folders directory w0 = (Ok items, w1) →
  info ∈ items →
  base_image info = None →
  base_video info = None →
  process_folder output_dir dry_run quality has_ffmpeg total idx info c w =
    (Ok c, log (EvPrint EmptyString) (log (EvPrint (progress_line total idx info)) w)).
Proof.
  intros Hfind Hin Hbi Hbv.
  pose proof (find_overlay_folders_discovered _ _ _ _ _ Hfind Hin) as Hd.
  assert (Hk : kind_of info = Unclassified) by (unfold kind_of; by rewrite Hbi, Hbv).
  apply (discovered_kind _ _ _ Hd) in Hk as [Hi Hv].
  unfold process_folder, bind, print, ret. by rewrite Hi, Hv.
Qed.

Lemma X12_witness :
  process_folder OUTPUT_FOLDER false 95 true 5 2
    (make_folder_info "memory2" "snapchat_memories/memory2" ["b-overlay.png"])
    zero_counters demo_scanned =
    (Ok zero_counters,
     log (EvPrint EmptyString)
       (log (EvPrint (progress_line 5 2
                        (make_folder_info "memory2" "snapchat_memories/memory2"
                           ["b-overlay.png"]))) demo_scanned)).
Proof.
  apply (X12_folder_without_base_is_passed_over SOURCE_FOLDER demo_world demo_found
           demo_scanned).
  - exact demo_found_eq.
  - vm_compute. repeat constructor.
  - reflexivity.
  - reflexivity.
Defined.

(** X13. In execute mode, take a folder flagged as a picture whose base
    and first overlay are pictures within the pixel limit of [Image.open],
    whose base has sides and an EXIF payload the JPEG encoder takes, and
    whose output path can be written.  With a quality [main] lets through,
    the folder ends up counted as a processed picture, and the file
    [<folder name>_combined.jpg] in the output directory is then the
    composite of that base and that overlay at that quality. *)
Theorem X13_picture_folder_ends_in_its_output_file
    output_dir quality has_ffmpeg total idx info c w base ov rest f o :
  is_image info = true →
  base_image info = Some base →
  overlays info = ov :: rest →
  fs w !! base = Some (EFile (Picture f)) →
  fs w !! ov = Some (EFile (Picture o)) →
  opens f →
  opens o →
  fits_jpeg f →
  1 ≤ quality ≤ 100 →
  fs_writable (fs w) (Path.join output_dir ((folder_name info +:+ "_combined") +:+ ".jpg"))
    = true →
  ∃ w', process_folder output_dir false quality has_ffmpeg total idx info c w =
          (Ok (incr_processed_images c), w') ∧
        fs w' !! Path.join output_dir ((folder_name info +:+ "_combined") +:+ ".jpg") =
          Some (EFile (Picture (composite f o quality))).
Proof.
  intros Hi Hbase Hov Hb Ho Hof Hoo Hfit Hq%fits_ssize_main Hw.
  rewrite (process_folder_image_execute _ _ _ _ _ _ _ _ ov rest Hi Hov). cbv zeta.
  rewrite Hbase.
  match goal with |- context [combine_image _ _ ?out _ ?w1] =>
    destruct (combine_image_succeeds base ov out quality w1 f o Hb Ho Hof Hoo Hfit Hq Hw)
      as [w2 Hrun];
    pose proof (combine_image_success _ _ _ _ _ _ Hrun) as (bp & f' & o' & Hbp & Hb' & Ho' & Hfs)
  end.
  simpl in Hb', Ho'. injection Hbp as <-. rewrite Hb in Hb'. rewrite Ho in Ho'.
  injection Hb' as <-. injection Ho' as <-.
  rewrite Hrun. eexists. split; [reflexivity|]. simpl. rewrite Hfs. simpl.
  apply fs_put_lookup.
Qed.

Lemma X13_witness :
  ∃ w', process_folder OUTPUT_FOLDER false 95 true 5 1
          (make_folder_info "memory1" "snapchat_memories/memory1"
             ["a-main.jpg"; "a-overlay.png"])
          zero_counters demo_scanned =
          (Ok (incr_processed_images zero_counters), w') ∧
        ∃ g, fs w' !! "snapchat_memories_combined/memory1_combined.jpg" =
               Some (EFile (Picture g)) ∧ f_size g = (100, 100).
Proof.
  destruct (X13_picture_folder_ends_in_its_output_file OUTPUT_FOLDER 95 true 5%nat 1%nat
              (make_folder_info "memory1" "snapchat_memories/memory1"
                 ["a-main.jpg"; "a-overlay.png"])
              zero_counters demo_scanned
              "snapchat_memories/memory1/a-main.jpg"
              "snapchat_memories/memory1/a-overlay.png" []
              {| f_format := JPEG; f_mode := ModeRGB; f_size := (100, 100);
                 f_exif := [Byte.x45; Byte.x78; Byte.x69; Byte.x66];
                 f_pixels := PxSource 1 |}
              {| f_format := PNG; f_mode := ModeRGBA; f_size := (50, 50);
                 f_exif := []; f_pixels := PxSource 2 |}) as (w' & Hrun & Hout).
  - reflexivity.
  - reflexivity.
  - reflexivity.
  - vm_compute. reflexivity.
  - vm_compute. reflexivity.
  - by vm_compute.
  - by vm_compute.
  - by vm_compute.
  - lia.
  - vm_compute. reflexivity.
  - exists w'. split; [exact Hrun|]. eexists. split; [exact Hout|reflexivity].
Defined.

(** X14. Over the folders discovery returned, an executing run enters
    the image compositor exactly once for every folder flagged as a
    picture, and the video compositor exactly once for every folder
    flagged as a video and not as a picture when the tool is there, and
    never when it is not; failures of a compositor change neither number. *)
Theorem X14_one_compositor_call_per_folder
    directory w0 items w1 output_dir quality has_ffmpeg total idx c w :
  find_overlay_folders directory w0 = (Ok items, w1) →
  let w' := (process_folders output_dir false quality has_ffmpeg total idx items c w).2 in
  attempted_images (trace w') =
    (attempted_images (trace w) + length (List.filter is_image items))%nat ∧
  attempted_videos (trace w') =
    (attempted_videos (trace w) +
     if has_ffmpeg then length (List.filter goes_to_video items) else 0)%nat.
Proof.
  intros Hfind. apply process_folders_attempts.
  apply find_overlay_folders_spec in Hfind as [_ Hall].
  eapply Forall_impl; [exact (Hall items eq_refl)|].
  intros info. apply discovered_overlays.
Qed.

Lemma X14_witness :
  let w' := (process_folders OUTPUT_FOLDER false 95 true 5 1 demo_found zero_counters
               demo_scanned).2 in
  attempted_images (trace w') =
    (attempted_images (trace demo_scanned) + length (List.filter is_image demo_found))%nat ∧
  attempted_videos (trace w') =
    (attempted_videos (trace demo_scanned) + length (List.filter goes_to_video demo_found))%nat.
Proof.
  exact (X14_one_compositor_call_per_folder SOURCE_FOLDER demo_world demo_found demo_scanned
           OUTPUT_FOLDER 95 true 5%nat 1%nat zero_counters demo_scanned demo_found_eq).
Defined.

(** ** The output directory *)

Lemma cut_flat p : Path.has_sep p = false → Path.cut p = (EmptyString, p).
Proof.
  induction p as [|c s IH]; [done|]. rewrite has_sep_cons.
  intros [Hc Hs]%orb_false_iff. simpl. rewrite (IH Hs), Hs, Hc. done.
Qed.

Lemma split_flat p : Path.has_sep p = false → Path.split p = (EmptyString, p).
Proof. intros H. unfold Path.split. by rewrite (cut_flat p H). Qed.

Lemma rstrip_flat p : Path.has_sep p = false → Path.rstrip p = p.
Proof.
  induction p as [|c s IH]; [done|]. rewrite has_sep_cons.
  intros [Hc Hs]%orb_false_iff. simpl. rewrite (IH Hs), Hc.
  by rewrite andb_false_r.
Qed.

Lemma makedirs_fs_flat fuel m name :
  Path.has_sep name = false → os.makedirs_fs fuel m name = os.mkdir_exist_ok m name.
Proof.
  intros H. destruct fuel as [|fuel]; [done|]. simpl.
  rewrite (split_flat name H).
  destruct (Str.is_empty name) eqn:He; [|done].
  destruct name; [|done]. reflexivity.
Qed.

Lemma bind_print {A} line (k : unit → M A) w :
  bind (print line) k w = k tt (log (EvPrint line) w).
Proof. reflexivity. Qed.

Lemma print_run line w : print line w = (Ok tt, log (EvPrint line) w).
Proof. reflexivity. Qed.

Ltac extends_logs :=
  repeat (eapply extends_trans; [|apply extends_log; reflexivity]).

(** X15. In execute mode, when discovery found something and the output
    directory is a plain name at which a regular file sits, [os.makedirs]
    raises [FileExistsError]; nothing catches it, so the pass stops after
    the scan and the headings, before any folder is processed: up to there
    it has only looked and printed. *)
Theorem X15_file_in_place_of_output_directory_raises
    source_dir output_dir quality has_ffmpeg w c info items w1 :
  Path.has_sep output_dir = false →
  fs w !! output_dir = Some (EFile c) →
  find_overlay_folders source_dir w = (Ok (info :: items), w1) →
  ∃ w2, process_all_memories source_dir output_dir false quality has_ffmpeg w =
          (Raise (Exn FileExistsError ("[Errno 17] File exists: '" +:+ output_dir +:+ "'")),
           log (EvMakedirs output_dir) w2) ∧
        extends is_read_or_print w w2.
Proof.
  intros Hflat Hfile Hfind.
  pose proof (emits_find_overlay_folders source_dir w) as Hext.
  pose proof (find_overlay_folders_spec _ _ _ _ Hfind) as [Hfs _].
  rewrite Hfind in Hext. simpl in Hext.
  unfold process_all_memories. unfold bind at 1. rewrite Hfind. cbn [truthy negb].
  repeat (rewrite bind_print; cbv beta).
  unfold bind at 1.
  destruct ((0 <? length (List.filter is_video (info :: items)))%nat && negb has_ffmpeg);
    unfold when, ret; repeat (rewrite bind_print; cbv beta);
    try (rewrite print_run; cbv beta iota; repeat (rewrite bind_print; cbv beta));
    unfold bind at 1; unfold os.makedirs; cbn [fs log];
    rewrite makedirs_fs_flat by done;
    unfold os.mkdir_exist_ok, os.mkdir_fs, os.is_root, fs_exists, fs_isdir; cbv zeta;
    rewrite (rstrip_flat _ Hflat), Hfs, Hfile; cbn [negb andb orb];
    destruct (Str.is_empty output_dir); cbn [negb andb orb];
    (eexists; split; [reflexivity|]);
    (eapply extends_trans; [exact Hext|]); extends_logs; apply extends_refl.
Qed.

Lemma X15_witness :
  ∃ w2, process_all_memories SOURCE_FOLDER "notes" false 95 true
          (set_fs (<["notes" := EFile (Blob [])]> demo_fs) demo_world) =
          (Raise (Exn FileExistsError "[Errno 17] File exists: 'notes'"),
           log (EvMakedirs "notes") w2) ∧
        extends is_read_or_print (set_fs (<["notes" := EFile (Blob [])]> demo_fs) demo_world) w2.
Proof.
  eapply (X15_file_in_place_of_output_directory_raises SOURCE_FOLDER "notes" 95 true
            (set_fs (<["notes" := EFile (Blob [])]> demo_fs) demo_world) (Blob [])).
  - reflexivity.
  - vm_compute. reflexivity.
  - vm_compute. reflexivity.
Defined.

(** ** The prompt and the probe *)

(** X16. With a valid quality and without [--skip-prompt], [main] reads
    one line at its question.  Any answer other than [y] or [yes], in
    whatever case, ends the run with "Cancelled.": up to there it has only
    printed and asked, so no probe, no scan, no write.  At the end of input
    the question raises [EOFError] and the run stops there, again before
    any probe, scan or write. *)
Theorem X16_prompt_declined_or_closed a w :
  1 ≤ quality a ≤ 100 →
  skip_prompt a = false →
  (∀ line rest,
     stdin w = line :: rest →
     Str.lower line ∉ ["y"; "yes"] →
     ∃ w' evs,
       main a w = (Ok tt, w') ∧
       fs w' = fs w ∧ stdin w' = rest ∧
       trace w' = trace w ++ evs ∧
       forallb is_print_or_input evs = true ∧
       List.last evs (EvPrint EmptyString) = EvPrint "Cancelled.") ∧
  (stdin w = [] →
   ∃ w' evs,
     main a w = (Raise (Exn EOFError "EOF when reading a line"), w') ∧
     fs w' = fs w ∧
     trace w' = trace w ++ evs ∧
     forallb is_print_or_input evs = true).
Proof.
  intros Hq Hskip. unfold main. rewrite Hskip.
  replace ((1 <=? quality a) && (quality a <=? 100)) with true
    by (symmetry; apply andb_true_iff; lia).
  cbn [negb]. split.
  - intros line rest Hin Hno.
    unfold bind, print, input. simpl. rewrite Hin. simpl.
    rewrite bool_decide_eq_false_2 by done. simpl.
    eexists. eexists. split; [reflexivity|]. simpl.
    split; [done|]. split; [done|].
    split; [rewrite <- !app_assoc; simpl; reflexivity|].
    split; reflexivity.
  - intros Hin.
    unfold bind, print, input. simpl. rewrite Hin.
    eexists. eexists. split; [reflexivity|]. simpl.
    split; [done|].
    split; [rewrite <- !app_assoc; simpl; reflexivity|reflexivity].
Qed.

Lemma X16_witness :
  ∃ w' evs,
    main {| execute := true; quality := 95; skip_prompt := false |}
      (set_stdin ["No"] demo_world) = (Ok tt, w') ∧
    fs w' = demo_fs ∧ stdin w' = [] ∧
    trace w' = evs ∧
    forallb is_print_or_input evs = true ∧
    List.last evs (EvPrint EmptyString) = EvPrint "Cancelled.".
Proof.
  apply (proj1 (X16_prompt_declined_or_closed
                  {| execute := true; quality := 95; skip_prompt := false |}
                  (set_stdin ["No"] demo_world) ltac:(simpl; lia) eq_refl) "No" []).
  - reflexivity.
  - vm_compute. intros H. repeat (inversion H as [|? ? ? H']; subst; clear H; rename H' into H).
Defined.

Lemma extends_set_stdin P w w' l : extends P w w' → extends P w (set_stdin l w').
Proof. intros (Hs & evs & Ht & HP & Hf). split; [done|]. by exists evs. Qed.

Lemma emits_process_folders_no_video_event output_dir dry_run quality total items : ∀ idx c,
  emits is_probe_or_no_video
    (process_folders output_dir dry_run quality false total idx items c).
Proof.
  intros idx c. eapply emits_weaken; [|apply emits_process_folders_no_video].
  intros e He. unfold is_probe_or_no_video. rewrite He. apply orb_true_r.
Qed.

Lemma emits_process_all_memories_without_tool source_dir output_dir dry_run quality :
  emits is_probe_or_no_video
    (process_all_memories source_dir output_dir dry_run quality false).
Proof.
  unfold process_all_memories.
  apply emits_bind.
  { eapply emits_weaken; [|apply emits_find_overlay_folders]. by intros []. }
  intros folders. destruct (negb (truthy folders)); [emits_auto|].
  do 7 (apply emits_bind; [emits_auto|]; intros _).
  apply emits_bind; [apply emits_process_folders_no_video_event|].
  intros c. unfold print_summary. emits_auto.
Qed.

Lemma main_after_prompt_without_tool dry_run quality w0 :
  (∀ err garbled m, spawn w0 ["ffmpeg"; "-version"] (fs w0) ≠ Exited 0 err garbled m) →
  extends is_probe_or_no_video w0 (main_after_prompt dry_run quality w0).2.
Proof.
  intros Hprobe. unfold main_after_prompt. unfold bind at 1.
  unfold check_ffmpeg_available, try_except, bind at 1, subprocess.run_checked, ret. simpl.
  assert (Hrest : ∀ w1, extends is_probe_or_no_video w0 w1 →
    extends is_probe_or_no_video w0
      ((when (negb false)
          (print "⚠️  ffmpeg not found - videos will be skipped" ;;;
           print "   To process videos, install ffmpeg:" ;;;
           print "   macOS: brew install ffmpeg" ;;;
           print "   Linux: sudo apt-get install ffmpeg" ;;;
           print EmptyString) ;;;
        (if dry_run then
           print "⚠️  DRY RUN MODE - Preview only, no files will be created" ;;;
           print EmptyString
         else
           print ("Creating combined files in: " +:+ OUTPUT_FOLDER +:+ "/") ;;;
           print EmptyString) ;;;
        process_all_memories SOURCE_FOLDER OUTPUT_FOLDER dry_run quality false) w1).2).
  { intros w1 H1. eapply extends_trans; [exact H1|].
    assert (Hem : emits is_probe_or_no_video
      (when (negb false)
          (print "⚠️  ffmpeg not found - videos will be skipped" ;;;
           print "   To process videos, install ffmpeg:" ;;;
           print "   macOS: brew install ffmpeg" ;;;
           print "   Linux: sudo apt-get install ffmpeg" ;;;
           print EmptyString) ;;;
        (if dry_run then
           print "⚠️  DRY RUN MODE - Preview only, no files will be created" ;;;
           print EmptyString
         else
           print ("Creating combined files in: " +:+ OUTPUT_FOLDER +:+ "/") ;;;
           print EmptyString) ;;;
        process_all_memories SOURCE_FOLDER OUTPUT_FOLDER dry_run quality false)).
    { apply emits_bind; [emits_auto|]. intros _.
      apply emits_bind; [destruct dry_run; emits_auto|]. intros _.
      apply emits_process_all_memories_without_tool. }
    apply Hem. }
  destruct (spawn w0 ["ffmpeg"; "-version"] (fs w0)) as [| | |rc err garbled m] eqn:Hsp; simpl.
  - apply Hrest.
    match goal with |- extends _ _ (log ?e ?w) =>
      replace (log e w) with (set_fs (fs w) (log e w)) by done
    end.
    by apply extends_log_write.
  - match goal with |- extends _ _ (log ?e ?w) =>
      replace (log e w) with (set_fs (fs w) (log e w)) by done
    end.
    by apply extends_log_write.
  - match goal with |- extends _ _ (log ?e ?w) =>
      replace (log e w) with (set_fs (fs w) (log e w)) by done
    end.
    by apply extends_log_write.
  - destruct (rc =? 0) eqn:Hrc; simpl.
    + apply Z.eqb_eq in Hrc as ->. by destruct (Hprobe err garbled m).
    + apply Hrest. by apply extends_log_write.
Qed.

(** X17. When the probe does not end with status 0 (ffmpeg missing or
    failing), a whole run of [main], in either mode and with or without the
    prompt, never enters the video compositor and spawns no ffmpeg job:
    the only process event it can leave is the probe itself. *)
Theorem X17_no_video_work_without_ffmpeg a w :
  (∀ err garbled m, spawn w ["ffmpeg"; "-version"] (fs w) ≠ Exited 0 err garbled m) →
  ∃ evs, trace (main a w).2 = trace w ++ evs ∧
         forallb is_probe_or_no_video evs = true ∧
         attempted_videos (trace (main a w).2) = attempted_videos (trace w).
Proof.
  intros Hprobe.
  assert (Hext : extends is_probe_or_no_video w (main a w).2).
  { unfold main.
    destruct (negb ((1 <=? quality a) && (quality a <=? 100))).
    { rewrite bind_print. unfold raise. simpl. by apply extends_log. }
    repeat (rewrite bind_print; cbv beta).
    destruct (negb (skip_prompt a)).
    - repeat (rewrite bind_print; cbv beta).
      unfold bind at 1. unfold input. cbn [stdin log].
      destruct (stdin w) as [|line rest].
      { cbn [snd]. extends_logs. apply extends_refl. }
      destruct (negb (bool_decide (Str.lower line ∈ ["y"; "yes"]))).
      + unfold print. cbn [snd].
        eapply extends_trans; [|by apply extends_log].
        apply extends_set_stdin. extends_logs. apply extends_refl.
      + rewrite bind_print.
        eapply extends_trans; [|apply main_after_prompt_without_tool; exact Hprobe].
        eapply extends_trans; [|by apply extends_log].
        apply extends_set_stdin. extends_logs. apply extends_refl.
    - eapply extends_trans; [|apply main_after_prompt_without_tool; exact Hprobe].
      extends_logs. apply extends_refl. }
  destruct Hext as (_ & evs & Ht & HP & _). exists evs.
  split; [done|]. split; [done|].
  unfold attempted_videos. rewrite Ht, List.filter_app, length_app.
  replace (List.filter is_combine_video evs) with (@nil event); [simpl; lia|].
  clear Ht. induction evs as [|e evs IH]; [done|]. simpl in *.
  apply andb_true_iff in HP as [He Hevs].
  destruct e; simpl in *; try (by apply IH). discriminate.
Qed.

Lemma X17_witness :
  ∃ evs, trace (main {| execute := true; quality := 95; skip_prompt := true |}
                  bare_world).2 =
           trace bare_world ++ evs ∧
         forallb is_probe_or_no_video evs = true ∧
         attempted_videos
           (trace (main {| execute := true; quality := 95; skip_prompt := true |}
                     bare_world).2) =
         attempted_videos (trace bare_world).
Proof.
  apply (X17_no_video_work_without_ffmpeg
           {| execute := true; quality := 95; skip_prompt := true |}
           bare_world).
  intros err m. simpl. discriminate.
Defined.

(** ** Output names *)

Lemma length_sapp (a b : string) :
  String.length (a +:+ b) = (String.length a + String.length b)%nat.
Proof. induction a as [|c a IH]; [done|]. rewrite sapp_cons. simpl. by rewrite IH. Qed.

Lemma sapp_same_length_tails (a b s t : string) :
  String.length s = String.length t → a +:+ s = b +:+ t → a = b ∧ s = t.
Proof.
  intros Hlen. revert b. induction a as [|c a IH]; intros b H.
  - rewrite sapp_nil in H. subst s. rewrite length_sapp in Hlen.
    destruct b; [by rewrite sapp_nil|]. simpl in Hlen. lia.
  - destruct b as [|d b].
    + rewrite sapp_nil in H. subst t. rewrite length_sapp in Hlen. simpl in Hlen. lia.
    + rewrite !sapp_cons in H. injection H as -> H.
      destruct (IH b H) as [-> ->]. done.
Qed.

Lemma sapp_inv_head (a s t : string) : a +:+ s = a +:+ t → s = t.
Proof.
  induction a as [|c a IH]; [by rewrite !sapp_nil|].
  rewrite !sapp_cons. intros [= H]. auto.
Qed.

Lemma prefix_sep_app (a s : string) c :
  String.prefix "/" a = false →
  String.prefix "/" (String c s) = false →
  String.prefix "/" (a +:+ String c s) = false.
Proof.
  destruct a as [|d a]; [by rewrite sapp_nil|].
  rewrite sapp_cons, !prefix_sep_cons. done.
Qed.

Lemma prefix_sep_output_name (a e : string) :
  String.prefix "/" a = false →
  e ∈ [".jpg"; ".mp4"] →
  String.prefix "/" ((a +:+ "_combined") +:+ e) = false.
Proof.
  intros Ha He. rewrite sapp_assoc.
  apply elem_of_cons in He as [->|He]; [|apply list_elem_of_singleton in He as ->].
  - change ("_combined" +:+ ".jpg") with "_combined.jpg".
    apply prefix_sep_app; [done|reflexivity].
  - change ("_combined" +:+ ".mp4") with "_combined.mp4".
    apply prefix_sep_app; [done|reflexivity].
Qed.

(** X18. Two folders whose names differ never share an output file, and
    a picture and a video never do either: for names that do not begin with
    a slash, the output path [<output>/<name>_combined<ext>] determines the
    name and the extension. *)
Theorem X18_output_paths_do_not_collide output_dir a b ea eb :
  String.prefix "/" a = false →
  String.prefix "/" b = false →
  ea ∈ [".jpg"; ".mp4"] →
  eb ∈ [".jpg"; ".mp4"] →
  Path.join output_dir ((a +:+ "_combined") +:+ ea) =
  Path.join output_dir ((b +:+ "_combined") +:+ eb) →
  a = b ∧ ea = eb.
Proof.
  intros Ha Hb Hea Heb Hjoin.
  assert (Hsuf : (a +:+ "_combined") +:+ ea = (b +:+ "_combined") +:+ eb).
  { unfold Path.join in Hjoin.
    rewrite !prefix_sep_output_name in Hjoin by done.
    destruct (Str.is_empty output_dir || Str.endswith "/" output_dir).
    - by apply sapp_inv_head in Hjoin.
    - apply sapp_inv_head in Hjoin. by apply sapp_inv_head in Hjoin. }
  rewrite !sapp_assoc in Hsuf.
  apply sapp_same_length_tails in Hsuf as [-> Hext].
  - split; [done|]. by apply sapp_inv_head in Hext.
  - apply elem_of_cons in Hea as [->|Hea];
      [|apply list_elem_of_singleton in Hea as ->];
      (apply elem_of_cons in Heb as [->|Heb];
       [|apply list_elem_of_singleton in Heb as ->]); reflexivity.
Qed.

Lemma X18_witness :
  "memory1" = "memory1" ∧ ".jpg" = ".jpg".
Proof.
  apply (X18_output_paths_do_not_collide OUTPUT_FOLDER "memory1" "memory1" ".jpg" ".jpg").
  - reflexivity.
  - reflexivity.
  - by left.
  - by left.
  - reflexivity.
Defined.

(** ** Running the image compositor again *)








